(** * writing-idiomatic-python: the layout component, the site configuration
      and the content pages

    The site is a Gatsby project.  Its own code is
    - [src/components/layout.js], the component that wraps every page,
    - [gatsby-config.js], whose [siteMetadata] carries the site title,
    - the Markdown pages under [src/pages], each opening with a front-matter
      block.
    Reading front-matter, ordering pages and rendering Markdown are done by
    Gatsby and its plugins; where a statement needs them they are modelled
    from the specification and say so. *)

From Stdlib Require Import QArith Ascii DecimalString DecimalPos DecimalZ.
From Stdlib Require Import Zdivisibility.
From stdpp Require Import base strings gmap list sorting.

#[local] Open Scope Z_scope.

(** ** JavaScript values and property access *)

Module JS.

(** The values a GraphQL result or a configuration object is made of.
    Numbers are kept to the integers, which is all the content uses. *)
#[warnings="-register-all"]
Inductive jsval : Type :=
| JUndefined
| JNull
| JBool (b : bool)
| JNum (z : Z)
| JStr (s : string)
| JObj (fields : gmap string jsval).

(** What can be thrown.  [TypeError] is the runtime's own; the other three are
    the error kinds the specification names for the build. *)
Inductive error : Type :=
| TypeError
| MalformedMetadataError
| DuplicateRouteError
| ConfigurationError.

Inductive result (A : Type) : Type :=
| Ok (a : A)
| Throw (e : error).
Arguments Ok {A} a.
Arguments Throw {A} e.

(** Sequencing: the first throw ends the evaluation. *)
#[global] Instance result_ret : MRet result := fun A a => Ok a.
#[global] Instance result_bind : MBind result := fun A B k r =>
  match r with
  | Ok a => k a
  | Throw e => Throw e
  end.

Definition succeeds {A : Type} (r : result A) : bool :=
  match r with Ok _ => true | Throw _ => false end.

(** [null] and [undefined] have no properties at all. *)
Definition nullish (v : jsval) : bool :=
  match v with
  | JUndefined | JNull => true
  | _ => false
  end.

(** [v.k] without the check for [null] and [undefined]: an own property of an
    object, [undefined] when it has none.  Beyond its own properties a value
    has what its prototype gives it ([length], [toString], ...); none of the
    names read in this repository ([site], [siteMetadata], [title]) is one of
    those, for an object or for a primitive. *)
Definition peek (v : jsval) (k : string) : jsval :=
  match v with
  | JObj fields => default JUndefined (fields !! k)
  | _ => JUndefined
  end.

(** The member expression [v.k]: reading a property of [null] or [undefined]
    throws a [TypeError]. *)
Definition get (v : jsval) (k : string) : result jsval :=
  if nullish v then Throw TypeError else Ok (peek v k).

End JS.

(** ** React elements *)

Module React.
Import JS.

(** The type of an element: a host tag written in lower case ([div], [h3]) or
    a component that was imported ([Link]). *)
Inductive elem_type : Type :=
| Host (tag : string)
| Component (name : string).

(** A prop of an element other than [children]: a string, or the styles that
    emotion's [css] tag makes of a template. *)
Inductive prop : Type :=
| PStr (s : string)
| PCss (styles : string).

(** What JSX builds.  A child in braces is any value (a string child is text,
    and JSX text is a string child); [children] of a component with several
    children is an array.  Building an element checks nothing about its
    children: that is left to React when it renders. *)
#[warnings="-register-all"]
Inductive node : Type :=
| NVal (v : jsval)
| NElem (type : elem_type) (props : gmap string prop) (children : list node)
| NArr (items : list node).

Definition child_nodes (n : node) : list node :=
  match n with
  | NElem _ _ children => children
  | _ => []
  end.

Definition type_of (n : node) : option elem_type :=
  match n with
  | NElem ty _ _ => Some ty
  | _ => None
  end.

Definition prop_of (n : node) (name : string) : option prop :=
  match n with
  | NElem _ props _ => props !! name
  | _ => None
  end.

End React.

(** ** gatsby-config.js *)

Module Config.
Import JS.

(** [module.exports.siteMetadata].  The [plugins] array beside it configures
    the build tooling and is not modelled. *)
Definition siteMetadata : jsval :=
  JObj {[ "title" := JStr "Writing Idiomatic Python" ]}.

(** The global metadata as the data model has it. *)
Record SiteMetadata : Type := { title : string }.

(** The metadata a configuration object supplies, when its [title] is a
    string. *)
Definition site_metadata (config : jsval) : option SiteMetadata :=
  match peek config "title" with
  | JStr s => Some {| title := s |}
  | _ => None
  end.

(** The result of the query [site { siteMetadata { title } }] that layout.js
    states, for a site whose metadata is [m]: the selected fields, nested as
    the query nests them. *)
Definition query_data (m : SiteMetadata) : jsval :=
  JObj {[ "site" := JObj {[ "siteMetadata" := JObj {[ "title" := JStr (title m) ]} ]} ]}.

End Config.

(** ** src/components/layout.js *)

Module Layout.
Import JS React.

(** A template literal: the quasis with the substituted values between
    them. *)
Fixpoint template (quasis values : list string) : string :=
  match quasis, values with
  | q :: quasis, v :: values => q +:+ v +:+ template quasis values
  | q :: _, [] => q
  | [], _ => ""
  end.

(** The tags [css] (emotion) and [graphql] (Gatsby), kept as the text they
    are given. *)
Definition css (quasis values : list string) : prop := PCss (template quasis values).
Definition graphql (quasis : list string) : string := template quasis [].

(** The props [StaticQuery] is given.  Gatsby runs [query] at build time and
    calls [render] with its result. *)
Record static_query : Type := {
  query : string;
  render : jsval -> result node
}.

Section Layout.

(** [rhythm] of ../utils/typography: a length in units of the base line
    height, as CSS text. *)
Variable rhythm : Q -> string.

Definition container_css : prop :=
  css ["
          margin: 0 auto;
          max-width: 1240px;
          padding: "; ";
          padding-top: "; ";
        "] [rhythm 2; rhythm (3 # 2)].

Definition heading_css : prop :=
  css ["
              margin-bottom: "; ";
              display: inline-block;
              font-style: normal;
            "] [rhythm 2].

Definition about_css : prop :=
  css ["
            float: right;
          "] [].

(** The default export.  The member expression [data.site.siteMetadata.title]
    is the only part of [render] that can throw; [rhythm] and the tags are
    taken to return, so hoisting the three reads changes nothing. *)
Definition Layout (children : node) : static_query := {|
  query := graphql ["
      query {
        site {
          siteMetadata {
            title
          }
        }
      }
    "];
  render := fun data =>
    site ← get data "site";
    siteMetadata ← get site "siteMetadata";
    title ← get siteMetadata "title";
    mret (NElem (Host "div") {[ "css" := container_css ]}
      [ NElem (Component "Link") {[ "to" := PStr (template ["/"] []) ]}
          [ NElem (Host "h3") {[ "css" := heading_css ]} [ NVal title ] ];
        NElem (Component "Link")
          {[ "to" := PStr (template ["/about/"] []); "css" := about_css ]}
          [ NVal (JStr "About") ];
        children ])
|}.

End Layout.

(** What [render] reads on its way to the title, without the checks, and
    whether one of the three reads meets [null] or [undefined]. *)
Definition metadata_of (data : jsval) : jsval :=
  peek (peek data "site") "siteMetadata".

Definition metadata_missing (data : jsval) : bool :=
  nullish data || nullish (peek data "site") || nullish (metadata_of data).

(** A stand-in for [rhythm] where a concrete one is needed: every length the
    same. *)
Definition one_rem (n : Q) : string := "1rem".

End Layout.

(** ** src/pages: the content documents *)

Module Content.

(** A content document: the three keys of its front-matter and the Markdown
    below it. *)
Record Document : Type := {
  title : string;
  date : string;
  order : Z;
  body : string
}.

#[global] Instance Document_eq_dec : EqDecision Document.
Proof. solve_decision. Defined.

Definition newline : ascii := "010"%char.
Definition dquote : ascii := "034"%char.

(** A value between double quotes, as the pages write titles and dates. *)
Definition quoted (s : string) : string :=
  String dquote (s +:+ String dquote "").

(** Lines of text, each ended by a line feed. *)
Fixpoint unlines (lines : list string) : string :=
  match lines with
  | [] => ""
  | l :: lines => l +:+ String newline (unlines lines)
  end.

(** The shape every page opens with: the delimiter, the three keys in this
    order, the delimiter. *)
Definition delimiter : string := "---".

Definition show_int (z : Z) : string := NilZero.string_of_int (Z.to_int z).

Definition front_matter (title date : string) (order : Z) : string :=
  unlines [ delimiter;
            "title: " +:+ quoted title;
            "date: " +:+ quoted date;
            "order: " +:+ show_int order;
            delimiter ].

(** *** Calendar dates *)

Definition digit (c : ascii) : option Z := Z.of_nat <$> Ascii.is_nat c.

Definition number (cs : list ascii) : option Z :=
  foldl (fun acc c => a ← acc; d ← digit c; Some (10 * a + d)) (Some 0) cs.

(** The year, month and day of a text of the form YYYY-MM-DD. *)
Definition iso_date (s : string) : option (Z * Z * Z) :=
  match String.list_ascii_of_string s with
  | [y1; y2; y3; y4; h1; m1; m2; h2; d1; d2] =>
      if decide (h1 = "-"%char ∧ h2 = "-"%char) then
        y ← number [y1; y2; y3; y4];
        m ← number [m1; m2];
        d ← number [d1; d2];
        Some (y, m, d)
      else None
  | _ => None
  end.

Definition leap_year (y : Z) : bool :=
  bool_decide (y mod 4 = 0) && (negb (bool_decide (y mod 100 = 0)) || bool_decide (y mod 400 = 0)).

Definition days_in_month (y m : Z) : Z :=
  match m with
  | 1 | 3 | 5 | 7 | 8 | 10 | 12 => 31
  | 4 | 6 | 9 | 11 => 30
  | 2 => if leap_year y then 29 else 28
  | _ => 0
  end.

(** An ISO date that names a day of the calendar. *)
Definition valid_calendar_date (s : string) : bool :=
  match iso_date s with
  | Some (y, m, d) => bool_decide (1 ≤ m ≤ 12 ∧ 1 ≤ d ≤ days_in_month y m)
  | None => false
  end.

(** *** The four pages *)

Section Pages.

(** The Markdown of each page below its front-matter: prose and code
    samples. *)
Variables body_cs body_wd body_ga body_oc : string.

(** src/pages/control-structures-and-functions.md, lines 1 to 5 *)
Definition control_structures_and_functions_md : string :=
  unlines [ "---";
            "title: " +:+ quoted "Control Structures and Functions";
            "date: " +:+ quoted "2019-02-06";
            "order: 1";
            "---" ] +:+ body_cs.

(** The document the sources hold after it, from line 470 on. *)
Definition working_with_data_md : string :=
  unlines [ "---";
            "title: " +:+ quoted "Working with Data";
            "date: " +:+ quoted "2019-02-06";
            "order: 2";
            "---" ] +:+ body_wd.

(** src/pages/general-advice.md, lines 1 to 5 *)
Definition general_advice_md : string :=
  unlines [ "---";
            "title: " +:+ quoted "General Advice";
            "date: " +:+ quoted "2019-02-09";
            "order: 4";
            "---" ] +:+ body_ga.

(** The document the sources hold after it, from line 102 on. *)
Definition organizing_your_code_md : string :=
  unlines [ "---";
            "title: " +:+ quoted "Organizing Your Code";
            "date: " +:+ quoted "2019-02-09";
            "order: 3";
            "---" ] +:+ body_oc.

(** The directory, in the order the sources hold the documents.  The sources
    do not give the file names of the second and the fourth; they are named
    after their titles here, as the other two are. *)
Definition pages : list (string * string) :=
  [ ("control-structures-and-functions.md", control_structures_and_functions_md);
    ("working-with-data.md", working_with_data_md);
    ("general-advice.md", general_advice_md);
    ("organizing-your-code.md", organizing_your_code_md) ].

(** The same four pages as documents: the values their front-matter states. *)
Definition control_structures_and_functions : Document := {|
  title := "Control Structures and Functions";
  date := "2019-02-06";
  order := 1;
  body := body_cs
|}.

Definition working_with_data : Document := {|
  title := "Working with Data";
  date := "2019-02-06";
  order := 2;
  body := body_wd
|}.

Definition general_advice : Document := {|
  title := "General Advice";
  date := "2019-02-09";
  order := 4;
  body := body_ga
|}.

Definition organizing_your_code : Document := {|
  title := "Organizing Your Code";
  date := "2019-02-09";
  order := 3;
  body := body_oc
|}.

Definition documents : list Document :=
  [ control_structures_and_functions; working_with_data;
    general_advice; organizing_your_code ].

End Pages.

(** How every body opens: an empty line, then the heading of the table of
    contents. *)
Definition contents : string := unlines [""; "### Contents"].

End Content.

(** ** The Front-Matter Parser *)

Module FrontMatter.
Import JS Content.

(** Modelled from the spec: every failure of the parser is of the one kind
    the specification gives it, "MalformedMetadataError (missing/invalid
    front-matter)". *)
Definition require {A : Type} (o : option A) : result A :=
  match o with
  | Some a => Ok a
  | None => Throw MalformedMetadataError
  end.

(** [s] without the prefix [p], when it starts with it. *)
Fixpoint strip_prefix (p s : string) : option string :=
  match p, s with
  | "", _ => Some s
  | String a p, String b s => if decide (a = b) then strip_prefix p s else None
  | String _ _, "" => None
  end.

(** Modelled from the spec: the metadata block of the external interface,
    read line by line: the lines up to the closing delimiter, and the text
    after it.  [line] is the part of the current line already read. *)
Fixpoint metadata_block (line rest : string) : option (list string * string) :=
  match rest with
  | "" => if decide (line = delimiter) then Some ([], "") else None
  | String c rest =>
      if decide (c = newline) then
        if decide (line = delimiter) then Some ([], rest)
        else '(lines, body) ← metadata_block "" rest; Some (line :: lines, body)
      else metadata_block (line +:+ String c "") rest
  end.

(** Modelled from the spec: a key-value pair is a line [key: value], cut at
    its first colon. *)
Fixpoint split_colon (s : string) : option (string * string) :=
  match s with
  | "" => None
  | String c s =>
      if decide (c = ":"%char) then Some ("", s)
      else '(k, v) ← split_colon s; Some (String c k, v)
  end.

Fixpoint trim_left (s : string) : string :=
  match s with
  | String c s' => if decide (c = " "%char) then trim_left s' else s
  | "" => ""
  end.

Definition key_value (line : string) : option (string * string) :=
  '(k, v) ← split_colon line; Some (k, trim_left v).

(** Modelled from the spec: the first half of the Front-Matter Parser, of
    which the sources hold no code (the generator's plugins read the pages).
    "Given raw document text, split
    into a metadata block and a body.  Parse the metadata block as key-value
    pairs."  The block is the one of the external interface: it opens the
    text and lies between two delimiter lines. *)
Definition metadata (raw : string) : option (gmap string string * string) :=
  rest ← strip_prefix (delimiter +:+ String newline "") raw;
  '(lines, body) ← metadata_block "" rest;
  pairs ← mapM key_value lines;
  Some (list_to_map pairs, body).

(** The text of a string without its last character, and that character. *)
Fixpoint strip_last (s : string) : option (string * ascii) :=
  match s with
  | "" => None
  | String c "" => Some ("", c)
  | String c s => '(init, last) ← strip_last s; Some (String c init, last)
  end.

(** Modelled from the spec: titles and dates stand between double quotes
    ([title: "<string>"]). *)
Definition unquote (v : string) : option string :=
  match v with
  | String c rest =>
      if decide (c = dquote) then
        '(inner, last) ← strip_last rest;
        if decide (last = dquote) then Some inner else None
      else None
  | "" => None
  end.

(** Modelled from the spec: a date is parsable when it is a quoted ISO date
    that names a day of the calendar ([date: "<ISO date>"]; "date is a valid
    calendar date"). *)
Definition parse_date (v : string) : option string :=
  d ← unquote v; if valid_calendar_date d then Some d else None.

(** Modelled from the spec: [order: <integer>], in decimal. *)
Definition read_int (v : string) : option Z :=
  Z.of_int <$> NilZero.int_of_string v.

(** Modelled from the spec: the Front-Matter Parser, of which the sources hold
    no code.  It reads the three keys, [title: "<string>"],
    [date: "<ISO date>"] and [order: <integer>], and "fails with a
    MalformedMetadataError if required keys are missing or the date is
    unparsable". *)
Definition parse (raw : string) : result Document :=
  '(meta, body) ← require (metadata raw);
  title ← require (meta !! "title" ≫= unquote);
  date ← require (meta !! "date" ≫= parse_date);
  order ← require (meta !! "order" ≫= read_int);
  mret {| title := title; date := date; order := order; body := body |}.

(** Modelled from the spec: re-serializing, which the specification names in
    its round-trip property and of which the repository has no code: the
    metadata written in the form of the external interface, the body after
    it. *)
Definition serialize (d : Document) : string :=
  front_matter (title d) (date d) (order d) +:+ body d.

(** The value the front-matter of [raw] gives [key], if any. *)
Definition field (raw key : string) : option string :=
  '(meta, _) ← metadata raw; meta !! key.

Definition required_keys : list string := ["title"; "date"; "order"].

(** The page of the failure scenario: General Advice without its [date]. *)
Definition undated_md : string :=
  unlines [ "---";
            "title: " +:+ quoted "General Advice";
            "order: 4";
            "---" ] +:+ contents.

(** A text that lies within one line. *)
Fixpoint newline_free (s : string) : bool :=
  match s with
  | "" => true
  | String c s => negb (bool_decide (c = newline)) && newline_free s
  end.

End FrontMatter.

(** ** The Page Resolver *)

Module Resolver.
Import JS React Content.

(** Modelled from the spec: the order of the pages, "ascending by order; ties
    broken by title", titles compared character by character. *)
Definition doc_leb (a b : Document) : bool :=
  bool_decide (order a < order b)
  || (bool_decide (order a = order b) && String.leb (title a) (title b)).

(** Modelled from the spec: one step of a stable sort.  [d], which came before
    the documents of [sorted], goes in front of the first one it is not
    greater than, so in front of those it ties with. *)
Fixpoint insert (d : Document) (sorted : list Document) : list Document :=
  match sorted with
  | [] => [d]
  | x :: rest => if doc_leb d x then d :: x :: rest else x :: insert d rest
  end.

(** Modelled from the spec: the ordering of the Page Resolver, of which the
    sources hold no code.  "Sorted ascending by order; ties
    broken by title"; "sorting is stable". *)
Definition sort_documents (docs : list Document) : list Document :=
  foldr insert [] docs.

(** The same order as a relation: an earlier page has the smaller [order], or
    the same [order] and a title that is not greater. *)
Definition doc_le (a b : Document) : Prop :=
  order a < order b \/ (order a = order b /\ String.le (title a) (title b)).

(** What the order compares. *)
Definition sort_key (d : Document) : Z * string := (order d, title d).

(** Modelled from the spec: a Page, "a Document resolved to a route path,
    with rendered HTML body". *)
Record Page : Type := {
  route : string;
  document : Document;
  html : node
}.

Section Resolver.

(** How a route is derived from a document and how Markdown is rendered are
    left to the generator. *)
Variable derive_route : Document -> string.
Variable render_markdown : string -> node.

Definition resolve (d : Document) : Page := {|
  route := derive_route d;
  document := d;
  html := render_markdown (body d)
|}.

(** Modelled from the spec: the Page Resolver, of which the sources hold no
    code.  "Given the full set of parsed Documents, produce an
    ordered sequence of Pages [...].  Each Document maps to exactly one Page
    at a derived route.  Fails with DuplicateRouteError if two documents
    resolve to the same route." *)
Definition page_resolver (docs : list Document) : result (list Page) :=
  if decide (NoDup (derive_route <$> docs))
  then Ok (resolve <$> sort_documents docs)
  else Throw DuplicateRouteError.

End Resolver.

(** A route from the title: lower case, every other character than a letter
    or a digit a hyphen. *)
Definition slug_char (c : ascii) : ascii :=
  let n := nat_of_ascii c in
  if bool_decide (65 ≤ n ≤ 90)%nat then ascii_of_nat (n + 32)
  else if bool_decide (97 ≤ n ≤ 122 ∨ 48 ≤ n ≤ 57)%nat then c
  else "-"%char.

Fixpoint slug (s : string) : string :=
  match s with
  | "" => ""
  | String c s => String (slug_char c) (slug s)
  end.

Definition title_route (d : Document) : string :=
  "/" +:+ slug (title d) +:+ "/".

(** A stand-in for the Markdown renderer where a concrete one is needed: the
    text as it is. *)
Definition plain (markdown : string) : node := NVal (JStr markdown).

(** The document of the ordering scenario: a second page of order 1. *)
Definition control_structures : Document := {|
  title := "Control Structures";
  date := "2019-02-06";
  order := 1;
  body := contents
|}.

End Resolver.

(** ** The Site Renderer *)

Module Site.
Import JS React Content FrontMatter Resolver Layout.

(** Modelled from the spec: what a build reports, a file it could not turn
    into a page or a failure of the whole site ("the build process reports
    the offending file"). *)
Inductive report : Type :=
| FileFailed (name : string) (e : error)
| BuildFailed (e : error).

Record build_result : Type := {
  output : list (string * node);
  reports : list report
}.

(** Modelled from the spec: the documents the files give, and the report of
    each file that gives none. *)
Definition parsed (files : list (string * string)) : list Document :=
  omap (fun f => match parse f.2 with Ok d => Some d | Throw _ => None end) files.

Definition failures (files : list (string * string)) : list report :=
  omap (fun f => match parse f.2 with Ok _ => None | Throw e => Some (FileFailed f.1 e) end) files.

Section Site.

Variable rhythm : Q -> string.
Variable derive_route : Document -> string.
Variable render_markdown : string -> node.

(** The layout around a page, at the page's route. *)
Definition compose (data : jsval) (p : Page) : result (string * node) :=
  out ← render (Layout rhythm (html p)) data; mret (route p, out).

(** Modelled from the spec: the Site Renderer, of which the sources hold no
    code.  It "orchestrates the above": the files are parsed, the documents
    resolved to pages, each page wrapped by the layout.  A file that fails to
    parse is reported and gives no page ("reports the offending file and
    aborts or skips that page"). *)
Definition build (data : jsval) (files : list (string * string)) : build_result :=
  match pages ← page_resolver derive_route render_markdown (parsed files);
        mapM (compose data) pages with
  | Ok out => {| output := out; reports := failures files |}
  | Throw e => {| output := []; reports := failures files ++ [BuildFailed e] |}
  end.

End Site.

End Site.

(** ** src/pages/about.js *)

Module About.
Import JS React.

(** What the JSX of a page builds.  A prop is any value: a string for [src]
    and [alt], an object for [style]. *)
#[warnings="-register-all"]
Inductive element : Type :=
| Val (v : jsval)
| Elem (type : elem_type) (props : gmap string jsval) (children : list element).

Definition children_of (e : element) : list element :=
  match e with
  | Elem _ _ children => children
  | Val _ => []
  end.

(** The page query, [export const query]. *)
Definition query : string := Layout.graphql ["
  query {
    site {
      siteMetadata {
        title
      }
    }
  }
"].

(** The default export: the page, given the result of its query.  The lines
    of JSX text are trimmed and joined by one space; the text before an
    expression on the same line keeps its space.  The member expression in
    the heading is the only part that can throw. *)
Definition About (data : jsval) : result element :=
  site ← get data "site";
  siteMetadata ← get site "siteMetadata";
  title ← get siteMetadata "title";
  mret (Elem (Component "Layout") ∅
    [ Elem (Host "h1") ∅ [ Val (JStr "About "); Val title ];
      Elem (Host "blockquote") ∅
        [ Val (JStr "Always code as if the guy who ends up maintaining your code will be a violent psychopath who knows where you live. --John Woods comp.lang.c++") ];
      Elem (Host "hr") ∅ [];
      Elem (Host "div") {[ "style" := JObj {[ "textAlign" := JStr "center" ]} ]}
        [ Elem (Host "img")
            {[ "src" := JStr "https://images-na.ssl-images-amazon.com/images/I/41yDBro6d9L._SX384_BO1,204,203,200_.jpg";
               "alt" := JStr "Writing Idiomatic Python books" ]} [] ] ]).

End About.

(** ** Python: what the code samples of the pages are written in

    The pages advise on Python by pairs of samples, one marked Harmful and
    one marked Idiomatic.  The samples that are complete functions are
    embedded below, over the values and built-ins they use. *)

Module Python.

(** The exceptions the samples raise or catch. *)
Inductive exn : Type :=
| KeyError
| IndexError
| TypeError
| ValueError
| ZeroDivisionError
| OverflowError
| RuntimeError.

#[global] Instance exn_eq_dec : EqDecision exn.
Proof. solve_decision. Defined.

(** A call returns a value or raises. *)
Inductive outcome (A : Type) : Type :=
| Return (a : A)
| Raise (e : exn).
Arguments Return {A} a.
Arguments Raise {A} e.

#[global] Instance outcome_ret : MRet outcome := fun A a => Return a.
#[global] Instance outcome_bind : MBind outcome := fun A B k r =>
  match r with
  | Return a => k a
  | Raise e => Raise e
  end.

#[global] Instance outcome_fmap : FMap outcome := fun A B f r =>
  match r with
  | Return a => Return (f a)
  | Raise e => Raise e
  end.

(** [try: body except caught: handler].  Another exception passes through,
    and so does whatever the handler raises. *)
Definition except {A : Type} (body : outcome A) (caught : exn) (handler : outcome A) : outcome A :=
  match body with
  | Return a => Return a
  | Raise e => if decide (e = caught) then handler else Raise e
  end.

(** The built-in types the samples name. *)
Inductive pytype : Type :=
| NoneType | bool_ | int_ | float_ | str_ | list_ | dict_ | tuple_ | type_.

#[global] Instance pytype_eq_dec : EqDecision pytype.
Proof. solve_decision. Defined.

(** Values: [None], booleans, integers, strings, lists, and the types
    themselves ([type(None)] is a value).  Floats, dicts and tuples are not
    among the values modelled. *)
#[warnings="-register-all"]
Inductive pyval : Type :=
| PNone
| PBool (b : bool)
| PInt (z : Z)
| PStr (s : string)
| PList (items : list pyval)
| PType (t : pytype).

Definition type (v : pyval) : pytype :=
  match v with
  | PNone => NoneType
  | PBool _ => bool_
  | PInt _ => int_
  | PStr _ => str_
  | PList _ => list_
  | PType _ => type_
  end.

(** [bool] is a subclass of [int]; the other types named here are unrelated. *)
Definition issubclass (t base : pytype) : bool :=
  bool_decide (t = base) || bool_decide (t = bool_ /\ base = int_).

(** [isinstance(v, (t1, t2, ...))]. *)
Definition isinstance (v : pyval) (bases : list pytype) : bool :=
  existsb (issubclass (type v)) bases.

(** The truth value of [v] in an [if], under [not], in [all]. *)
Definition truthy (v : pyval) : bool :=
  match v with
  | PNone => false
  | PBool b => b
  | PInt z => negb (bool_decide (z = 0))
  | PStr s => negb (bool_decide (s = ""))
  | PList items => negb (bool_decide (items = []))
  | PType _ => true
  end.

(** The number a boolean or an integer stands for in a comparison. *)
Definition as_int (v : pyval) : option Z :=
  match v with
  | PBool b => Some (if b then 1 else 0)
  | PInt z => Some z
  | _ => None
  end.

(** [a == b].  [True == 1] and [False == 0]; values of unrelated types are
    unequal. *)
Fixpoint equals (a b : pyval) : bool :=
  match a, b with
  | PNone, PNone => true
  | (PBool _ | PInt _), (PBool _ | PInt _) => bool_decide (as_int a = as_int b)
  | PStr s, PStr t => bool_decide (s = t)
  | PList xs, PList ys =>
      (fix all2 (xs ys : list pyval) : bool :=
         match xs, ys with
         | [], [] => true
         | x :: xs, y :: ys => equals x y && all2 xs ys
         | _, _ => false
         end) xs ys
  | PType t, PType u => bool_decide (t = u)
  | _, _ => false
  end.

(** [v in (x1, x2, ...)]. *)
Definition contains (items : list pyval) (v : pyval) : bool :=
  existsb (fun x => equals x v) items.

(** [len(v)]: strings and lists have a length, the other values raise. *)
Definition len (v : pyval) : outcome Z :=
  match v with
  | PStr s => Return (Z.of_nat (String.length s))
  | PList items => Return (Z.of_nat (length items))
  | _ => Raise TypeError
  end.

Section Int.

(** Reading an integer off a string, which no sample here depends on. *)
Variable int_of_str : string -> outcome Z.

(** [int(v)]. *)
Definition int (v : pyval) : outcome Z :=
  match v with
  | PBool b => Return (if b then 1 else 0)
  | PInt z => Return z
  | PStr s => int_of_str s
  | PNone | PList _ | PType _ => Raise TypeError
  end.

End Int.

(** *** Sequences *)

(** [seq[i]]: a negative index counts from the end; out of range raises. *)
Definition getitem {A : Type} (seq : list A) (i : Z) : outcome A :=
  let n := Z.of_nat (length seq) in
  let j := if bool_decide (i < 0) then i + n else i in
  if bool_decide (0 ≤ j < n)
  then from_option Return (Raise IndexError) (seq !! Z.to_nat j)
  else Raise IndexError.

(** [seq[start:]]: a negative start counts from the end; out of range is
    clipped. *)
Definition slice_from {A : Type} (seq : list A) (start : Z) : list A :=
  let n := Z.of_nat (length seq) in
  let s := if bool_decide (start < 0) then Z.max (start + n) 0 else Z.min start n in
  drop (Z.to_nat s) seq.

(** [range(start, stop)]. *)
Definition range (start stop : Z) : list Z := seqZ start (stop - start).

(** [sum(numbers)] over integers. *)
Definition sum (numbers : list Z) : Z := foldl Z.add 0 numbers.

(** [all(iterable)]. *)
Definition all (iterable : list pyval) : bool := forallb truthy iterable.

(** [d[key]]: a missing key raises. *)
Definition subscript {V : Type} (d : gmap string V) (key : string) : outcome V :=
  from_option Return (Raise KeyError) (d !! key).

(** *** Numbers with true division *)

(** The result of arithmetic on integers: an integer, or the float that [/]
    makes.  What float [a / b] is, is left open; so is which quotients are
    too large for a float. *)
Inductive number (F : Type) : Type :=
| Int (z : Z)
| Float (f : F).
Arguments Int {F} z.
Arguments Float {F} f.

(** [a / b] on integers: a division by zero raises [ZeroDivisionError], a
    quotient too large for a float raises [OverflowError].  [quotient a b]
    is the float of [a / b], when there is one. *)
Definition truediv {F : Type} (quotient : Z -> Z -> option F) (a b : Z) : outcome (number F) :=
  if bool_decide (b = 0) then Raise ZeroDivisionError
  else match quotient a b with
       | Some f => Return (Float f)
       | None => Raise OverflowError
       end.

(** *** List objects *)

(** Lists are objects: a name refers to one, and two names may refer to the
    same. *)
Definition loc : Type := positive.

(** [[]]: a new list object. *)
Definition new_list {A : Type} (heap : gmap loc (list A)) : gmap loc (list A) * loc :=
  let l := fresh (dom heap) in (<[l := []]> heap, l).

(** [L.append(a)]. *)
Definition append {A : Type} (L : loc) (a : A) (heap : gmap loc (list A)) : gmap loc (list A) :=
  alter (fun items => items ++ [a]) L heap.

End Python.

(** ** The samples of Control Structures and Functions
       (src/pages/control-structures-and-functions.md) *)

Module ControlStructures.
Import Python.

Module Harmful.

Section Emails.

(** For loops, 3.  The users, their addresses and the check are the
    program's own and not on the page; so is what [format] shows of a user.
    The sample prints: a run is the lines printed, over the users that
    [get_all_users()] returned. *)
Context {User Email : Type}.
Variable get_all_email_addresses : User -> list Email.
Variable email_is_malformed : Email -> bool.
Variable str : User -> string.

(** The inner loop: the flag as the loop leaves it, and what it printed.
    [break] ends the loop. *)
Fixpoint for_email_address (addresses : list Email)
    (has_malformed_email_address : bool) : bool * list string :=
  match addresses with
  | [] => (has_malformed_email_address, [])
  | email_address :: addresses =>
      if email_is_malformed email_address
      then (true, ["Has a malformed email address!"])
      else for_email_address addresses has_malformed_email_address
  end.

(** The body of the outer loop. *)
Definition for_user (user : User) : list string :=
  let has_malformed_email_address := false in
  let checking := "Checking " +:+ str user in
  let '(has_malformed_email_address, printed) :=
    for_email_address (get_all_email_addresses user) has_malformed_email_address in
  [checking] ++ printed ++
  (if negb has_malformed_email_address then ["All email addresses are valid!"] else []).

Definition check_users (get_all_users : list User) : list string :=
  get_all_users ≫= for_user.

End Emails.

Section Default.

Context {A : Type}.

(** Functions, 1.  [def f(a, L = [])]: the default is evaluated once, when
    the function is defined, and every call that leaves [L] out is given that
    one list.  [default] is the list made then. *)
Definition def_f (heap : gmap loc (list A)) : gmap loc (list A) * loc :=
  new_list heap.

(** A call: the heap after it and the list returned. *)
Definition f (default : loc) (a : A) (L : option loc) (heap : gmap loc (list A)) :
    gmap loc (list A) * loc :=
  let L := from_option id default L in
  let heap := append L a heap in
  (heap, L).

End Default.

(** Exceptions, 2. *)
Definition get_log_level (config_dict : gmap string pyval) : outcome pyval :=
  if bool_decide ("ENABLE_LOGGING" ∈ dom config_dict) then
    enable_logging ← subscript config_dict "ENABLE_LOGGING";
    if negb (equals enable_logging (PBool true)) then Return PNone
    else if negb (bool_decide ("DEFAULT_LOG_LEVEL" ∈ dom config_dict)) then Return PNone
    else subscript config_dict "DEFAULT_LOG_LEVEL"
  else Return PNone.

End Harmful.

Module Idiomatic.

Section Emails.

Context {User Email : Type}.
Variable get_all_email_addresses : User -> list Email.
Variable email_is_malformed : Email -> bool.
Variable str : User -> string.

(** The inner loop with its [else]: the [else] runs when the loop has gone
    through every address, and [break] skips it. *)
Fixpoint for_email_address (addresses : list Email) : list string :=
  match addresses with
  | [] => ["All email addresses are valid!"]
  | email_address :: addresses =>
      if email_is_malformed email_address
      then ["Has a malformed email address!"]
      else for_email_address addresses
  end.

Definition for_user (user : User) : list string :=
  ["Checking " +:+ str user] ++ for_email_address (get_all_email_addresses user).

Definition check_users (get_all_users : list User) : list string :=
  get_all_users ≫= for_user.

End Emails.

Section Default.

Context {A : Type}.

(** [def f(a, L = None)]: a call that leaves [L] out makes a list of its
    own. *)
Definition f (a : A) (L : option loc) (heap : gmap loc (list A)) :
    gmap loc (list A) * loc :=
  let '(heap, L) :=
    match L with
    | None => new_list heap
    | Some L => (heap, L)
    end in
  let heap := append L a heap in
  (heap, L).

End Default.

(** The function ends without a [return] when logging is not enabled: it
    returns [None]. *)
Definition get_log_level (config_dict : gmap string pyval) : outcome pyval :=
  except
    (enable_logging ← subscript config_dict "ENABLE_LOGGING";
     if truthy enable_logging
     then subscript config_dict "DEFAULT_LOG_LEVEL"
     else Return PNone)
    KeyError
    (Return PNone).

End Idiomatic.

Section Prints.

Context {A : Type}.

(** [print(f(a1)); print(f(a2)); ...], each call leaving [L] out: the lists
    printed, each as it is when it is printed. *)
Fixpoint prints (f : A -> option loc -> gmap loc (list A) -> gmap loc (list A) * loc)
    (arguments : list A) (heap : gmap loc (list A)) : list (list A) :=
  match arguments with
  | [] => []
  | a :: arguments =>
      let '(heap, L) := f a None heap in
      default [] (heap !! L) :: prints f arguments heap
  end.

End Prints.

End ControlStructures.

(** ** The samples of Working with Data
       (the second document of src/pages/control-structures-and-functions.md) *)

Module WorkingWithData.
Import Python.

Module Harmful.

(** Lists, 2.  A word is the sequence of its characters. *)
Definition get_suffix {A : Type} (word : list A) : list A :=
  let word_length := Z.of_nat (length word) in
  slice_from word (word_length - 2).

(** Lists, 5. *)
Fixpoint contains_zero (iterable : list pyval) : bool :=
  match iterable with
  | [] => false
  | e :: iterable => if equals e (PInt 0) then true else contains_zero iterable
  end.

(** Dictionaries, 1, on integers.  With an operator that is none of the four
    the function ends without a [return]: it returns [None]. *)
Definition apply_operation {F : Type} (quotient : Z -> Z -> option F)
    (left_operand right_operand : Z) (operator : string) : outcome (option (number F)) :=
  if bool_decide (operator = "+") then Return (Some (Int (left_operand + right_operand)))
  else if bool_decide (operator = "-") then Return (Some (Int (left_operand - right_operand)))
  else if bool_decide (operator = "*") then Return (Some (Int (left_operand * right_operand)))
  else if bool_decide (operator = "/") then
    Some <$> truediv quotient left_operand right_operand
  else Return None.

(** Sets, 1.  The two lists of user names are what
    [get_list_of_most_popular_users()] and [get_list_of_most_active_users()]
    returned. *)
Definition get_both_popular_and_active_users
    (get_list_of_most_popular_users get_list_of_most_active_users : list string) : list string :=
  let most_popular_users := get_list_of_most_popular_users in
  let most_active_users := get_list_of_most_active_users in
  foldl (fun popular_and_active_users user =>
           if bool_decide (user ∈ most_popular_users)
           then popular_and_active_users ++ [user]
           else popular_and_active_users)
    [] most_active_users.

(** Sets, 3. *)
Definition has_duplicate (list_one list_two : list string) : bool :=
  foldl (fun duplicate_name name =>
           if bool_decide (name ∈ list_two) then true else duplicate_name)
    false list_one.

(** Sets, 4: the loop that fills [unique_surnames]. *)
Definition unique_surnames (employee_surnames : list string) : list string :=
  foldl (fun unique_surnames surname =>
           if bool_decide (surname ∉ unique_surnames)
           then unique_surnames ++ [surname]
           else unique_surnames)
    [] employee_surnames.

Section GetSize.

Variable int_of_str : string -> outcome Z.

(** Classes, 3. *)
Definition get_size (some_object : pyval) : outcome pyval :=
  except (PInt <$> len some_object) TypeError
    (if contains [PBool true; PBool false; PType (type PNone)] some_object
     then Return (PInt 1)
     else PInt <$> int int_of_str some_object).

End GetSize.

End Harmful.

Module Idiomatic.

Definition get_suffix {A : Type} (word : list A) : list A :=
  slice_from word (-2).

Definition contains_zero (iterable : list pyval) : bool :=
  negb (all iterable).

(** [operator_mapper]: what [op.add], [op.sub], [op.mul] and [op.truediv] do
    on integers. *)
Definition operator_mapper {F : Type} (quotient : Z -> Z -> option F) :
    gmap string (Z -> Z -> outcome (number F)) :=
  {[ "+" := fun a b => Return (Int (a + b));
     "-" := fun a b => Return (Int (a - b));
     "*" := fun a b => Return (Int (a * b));
     "/" := truediv quotient ]}.

Definition apply_operation {F : Type} (quotient : Z -> Z -> option F)
    (left_operand right_operand : Z) (operator : string) : outcome (option (number F)) :=
  op ← subscript (operator_mapper quotient) operator;
  Some <$> op left_operand right_operand.

Definition get_both_popular_and_active_users
    (get_list_of_most_popular_users get_list_of_most_active_users : list string) : gset string :=
  list_to_set get_list_of_most_active_users ∩ list_to_set get_list_of_most_popular_users.

Definition has_duplicate (list_one list_two : list string) : gset string :=
  list_to_set list_one ∩ list_to_set list_two.

Definition unique_surnames (employee_surnames : list string) : gset string :=
  list_to_set employee_surnames.

(** Classes, 2.  The functions are the methods of the Harmful [StringUtils]
    without their class; the bodies are the same. *)
Definition count_occurrences {A : Type} `{EqDecision A} (string : list A) (key : A) : Z :=
  sum ((fun _ => 1) <$> filter (fun c => c = key) string).

Section Palindrome.

Context {A : Type} `{EqDecision A}.

(** The loop over the indices still to come; [return False] ends it. *)
Fixpoint for_index (string : list A) (indices : list Z) : outcome bool :=
  match indices with
  | [] => Return true
  | index :: indices =>
      a ← getitem string index;
      b ← getitem string (- index - 1);
      if bool_decide (a ≠ b) then Return false else for_index string indices
  end.

Definition is_palindrome (string : list A) : outcome bool :=
  for_index string (range 0 (Z.of_nat (length string) `div` 2)).

End Palindrome.

Section GetSize.

Variable int_of_str : string -> outcome Z.

(** With an object of none of the types named the function ends without a
    [return]: it returns [None]. *)
Definition get_size (some_object : pyval) : outcome pyval :=
  if isinstance some_object [list_; dict_; str_; tuple_] then PInt <$> len some_object
  else if isinstance some_object [bool_; type PNone] then Return (PInt 1)
  else if isinstance some_object [int_; float_] then PInt <$> int int_of_str some_object
  else Return PNone.

End GetSize.

End Idiomatic.

End WorkingWithData.

(** ** The samples of Organizing Your Code
       (the second document of src/pages/general-advice.md) *)

Module OrganizingYourCode.
Import Python.

(** What a script does that can be seen from outside: the calls it makes to
    the two functions that are the program's own. *)
Inductive event (Result : Type) : Type :=
| do_stuff_called (argument : string)
| do_stuff_with_result_called (result : Result).
Arguments do_stuff_called {Result} argument.
Arguments do_stuff_with_result_called {Result} result.

(** How a function ends: by returning a value, or by [sys.exit] with a
    message or a status. *)
Inductive ending : Type :=
| Returned (value : Z)
| ExitStr (message : string)
| ExitInt (status : Z).

Module Harmful.

Section Mean.

Context {F : Type}.
Variable quotient : Z -> Z -> option F.

(** Documentation, 2, on integers. *)
Definition calculate_mean (numbers : list Z) : outcome (number F) :=
  if bool_decide (numbers = []) then Return (Int 0)
  else
    let total := foldl (fun total number => total + number) 0 numbers in
    truediv quotient total (Z.of_nat (length numbers)).

End Mean.

(** Documentation, 3.  The loop over the candidates still to come: what it
    prints (integers, one to a line) and what the function returns. *)
Fixpoint for_candidate (number : Z) (candidates : list Z) : list Z * bool :=
  match candidates with
  | [] => ([], bool_decide (number > 0))
  | candidate :: candidates =>
      if bool_decide (number `mod` candidate = 0)
      then ([candidate; number `mod` candidate], false)
      else for_candidate number candidates
  end.

Definition is_prime (number : Z) : list Z * bool :=
  for_candidate number (range 2 number).

Section Script.

Context {Result : Type}.
Variable do_stuff : string -> Result.
Variable truth : Result -> bool.

(** Executable Scripts, 3: the script run with the command line [argv];
    [len(sys.argv) > 1] is that there is a second entry. *)
Definition script (argv : list string) : list (event Result) :=
  match argv with
  | _ :: argument :: _ =>
      let result := do_stuff argument in
      [do_stuff_called argument] ++
      (if truth result then [do_stuff_with_result_called result] else [])
  | _ => []
  end.

End Script.

End Harmful.

Module Idiomatic.

Section Mean.

Context {F : Type}.
Variable quotient : Z -> Z -> option F.

Definition calculate_mean (numbers : list Z) : outcome (number F) :=
  truediv quotient (sum numbers) (Z.of_nat (length numbers)).

End Mean.

Fixpoint for_candidate (number : Z) (candidates : list Z) : bool :=
  match candidates with
  | [] => bool_decide (number > 0)
  | candidate :: candidates =>
      if bool_decide (number `mod` candidate = 0)
      then false
      else for_candidate number candidates
  end.

Definition is_prime (number : Z) : bool :=
  for_candidate number (range 2 number).

Section Script.

Context {Result : Type}.
Variable do_stuff : string -> Result.
Variable truth : Result -> bool.

(** [main()] with the command line [argv]: the calls it made and how it
    ended.  [len(sys.argv) < 2] is that there is no second entry. *)
Definition main (argv : list string) : list (event Result) * ending :=
  match argv with
  | _ :: argument :: _ =>
      let result := do_stuff argument in
      if negb (truth result) then ([do_stuff_called argument], ExitInt 1)
      else ([do_stuff_called argument; do_stuff_with_result_called result], Returned 0)
  | _ => ([], ExitStr "You forgot to pass an argument")
  end.

End Script.

End Idiomatic.

End OrganizingYourCode.

(** * Properties *)

(** ** The layout *)

Module LayoutFacts.
Import JS React Config Layout.

Section Facts.

Variable rhythm : Q -> string.

Lemma get_Ok (v : jsval) (k : string) :
  nullish v = false -> get v k = Ok (peek v k).
Proof. unfold get. by intros ->. Qed.

Lemma get_Throw (v : jsval) (k : string) :
  nullish v = true -> get v k = Throw TypeError.
Proof. unfold get. by intros ->. Qed.

(** The three reads of [render], one after the other. *)
Lemma render_reads (children : node) (data : jsval) :
  metadata_missing data = false ->
  render (Layout rhythm children) data =
  Ok (NElem (Host "div") {[ "css" := container_css rhythm ]}
      [ NElem (Component "Link") {[ "to" := PStr "/" ]}
          [ NElem (Host "h3") {[ "css" := heading_css rhythm ]}
              [ NVal (peek (metadata_of data) "title") ] ];
        NElem (Component "Link") {[ "to" := PStr "/about/"; "css" := about_css ]}
          [ NVal (JStr "About") ];
        children ]).
Proof.
  unfold metadata_missing, metadata_of. intros H.
  apply orb_false_elim in H as [H Hmeta].
  apply orb_false_elim in H as [Hdata Hsite].
  cbn [render Layout].
  rewrite (get_Ok data) by done. cbn [mbind result_bind].
  rewrite (get_Ok (peek data "site")) by done. cbn [mbind result_bind].
  rewrite (get_Ok (peek (peek data "site") "siteMetadata")) by done.
  reflexivity.
Qed.

Lemma render_throws (children : node) (data : jsval) :
  metadata_missing data = true ->
  render (Layout rhythm children) data = Throw TypeError.
Proof.
  unfold metadata_missing, metadata_of. intros H.
  cbn [render Layout].
  destruct (nullish data) eqn:Hdata.
  { by rewrite get_Throw. }
  rewrite (get_Ok data) by done. cbn [mbind result_bind].
  destruct (nullish (peek data "site")) eqn:Hsite.
  { by rewrite get_Throw. }
  rewrite (get_Ok (peek data "site")) by done. cbn [mbind result_bind].
  cbn in H. by rewrite get_Throw.
Qed.

Lemma query_data_present (m : SiteMetadata) :
  metadata_missing (query_data m) = false.
Proof. reflexivity. Qed.

End Facts.

(** The layout around a page of this site: the heading reads the title of
    gatsby-config.js. *)
Example layout_of_this_site (rhythm : Q -> string) (body : node) :
  site_metadata siteMetadata = Some {| title := "Writing Idiomatic Python" |} /\
  render (Layout rhythm body) (query_data {| title := "Writing Idiomatic Python" |}) =
  Ok (NElem (Host "div") {[ "css" := container_css rhythm ]}
      [ NElem (Component "Link") {[ "to" := PStr "/" ]}
          [ NElem (Host "h3") {[ "css" := heading_css rhythm ]}
              [ NVal (JStr "Writing Idiomatic Python") ] ];
        NElem (Component "Link") {[ "to" := PStr "/about/"; "css" := about_css ]}
          [ NVal (JStr "About") ];
        body ]).
Proof. split; reflexivity. Qed.

(** C3. For every page body and every site metadata, the layout's output is
    the body wrapped in a [div] that holds, in this order, a link home around
    a heading with the site title taken from the metadata, a link labelled
    "About", and the body itself, unchanged. *)
Theorem layout_wraps_body (rhythm : Q -> string) (body : node) (m : SiteMetadata) :
  render (Layout rhythm body) (query_data m) =
  Ok (NElem (Host "div") {[ "css" := container_css rhythm ]}
      [ NElem (Component "Link") {[ "to" := PStr "/" ]}
          [ NElem (Host "h3") {[ "css" := heading_css rhythm ]}
              [ NVal (JStr (title m)) ] ];
        NElem (Component "Link") {[ "to" := PStr "/about/"; "css" := about_css ]}
          [ NVal (JStr "About") ];
        body ]).
Proof.
  rewrite render_reads by apply query_data_present.
  reflexivity.
Qed.

(** C4, as amended.  The layout raises no error of its own.  When the query
    result, its [site] or its [siteMetadata] is [null] or [undefined], reading
    the next property throws the runtime's [TypeError]; in every other case,
    a [siteMetadata] without a title included, output is produced, with
    whatever [title] holds in the heading. *)
Theorem layout_error_is_type_error (rhythm : Q -> string) (children : node) (data : jsval) :
  render (Layout rhythm children) data <> Throw ConfigurationError /\
  (metadata_missing data = true ->
   render (Layout rhythm children) data = Throw TypeError) /\
  (metadata_missing data = false ->
   exists props header nav,
     render (Layout rhythm children) data =
       Ok (NElem (Host "div") props [header; nav; children]) /\
     child_nodes header =
       [ NElem (Host "h3") {[ "css" := heading_css rhythm ]}
           [ NVal (peek (metadata_of data) "title") ] ]).
Proof.
  split; [|split].
  - destruct (metadata_missing data) eqn:H.
    + by rewrite render_throws.
    + by rewrite render_reads.
  - apply render_throws.
  - intros H. rewrite render_reads by done. eauto.
Qed.

(** C4, the claim as stated fails: with [siteMetadata] missing from the query
    result the layout throws a [TypeError], not a [ConfigurationError], and
    with a [siteMetadata] that has no title it produces output. *)
Lemma missing_metadata_counterexample :
  render (Layout one_rem (NVal (JStr "page")))
    (JObj {[ "site" := JObj {[ "siteMetadata" := JNull ]} ]}) = Throw TypeError /\
  render (Layout one_rem (NVal (JStr "page")))
    (JObj {[ "site" := JObj {[ "siteMetadata" := JNull ]} ]}) <> Throw ConfigurationError /\
  succeeds (render (Layout one_rem (NVal (JStr "page")))
    (JObj {[ "site" := JObj {[ "siteMetadata" := JObj ∅ ]} ]})) = true.
Proof. by repeat split. Qed.

(** C9. The body is the last child of the wrapper, after the header and the
    navigation link, exactly as it was given; and neither the wrapper's props,
    nor the header, nor the link depend on it. *)
Theorem children_pass_through (rhythm : Q -> string) (children : node) (data : jsval) (out : node) :
  render (Layout rhythm children) data = Ok out ->
  exists props header nav,
    out = NElem (Host "div") props [header; nav; children] /\
    forall children' : node,
      render (Layout rhythm children') data =
        Ok (NElem (Host "div") props [header; nav; children']).
Proof.
  intros Hout. destruct (metadata_missing data) eqn:H.
  - by rewrite render_throws in Hout.
  - rewrite render_reads in Hout by done. injection Hout as <-.
    do 3 eexists. split; [reflexivity|].
    intros children'. by rewrite render_reads.
Qed.

Lemma children_pass_through_witness :
  exists props header nav,
    NElem (Host "div") {[ "css" := container_css one_rem ]}
      [ NElem (Component "Link") {[ "to" := PStr "/" ]}
          [ NElem (Host "h3") {[ "css" := heading_css one_rem ]}
              [ NVal (JStr "Writing Idiomatic Python") ] ];
        NElem (Component "Link") {[ "to" := PStr "/about/"; "css" := about_css ]}
          [ NVal (JStr "About") ];
        NVal (JStr "page") ]
    = NElem (Host "div") props [header; nav; NVal (JStr "page")] /\
    forall children' : node,
      render (Layout one_rem children')
        (query_data {| title := "Writing Idiomatic Python" |}) =
        Ok (NElem (Host "div") props [header; nav; children']).
Proof.
  apply (children_pass_through one_rem (NVal (JStr "page"))
           (query_data {| title := "Writing Idiomatic Python" |})).
  reflexivity.
Defined.

(** C10. Whatever page the layout wraps, the header is a [Link] to "/" around
    the heading and the navigation link is a [Link] to "/about/" labelled
    "About". *)
Theorem links_go_home_and_about (rhythm : Q -> string) (children : node) (data : jsval) (out : node) :
  render (Layout rhythm children) data = Ok out ->
  exists header nav heading,
    child_nodes out = [header; nav; children] /\
    type_of header = Some (Component "Link") /\
    prop_of header "to" = Some (PStr "/") /\
    child_nodes header = [heading] /\
    type_of heading = Some (Host "h3") /\
    child_nodes heading = [NVal (peek (metadata_of data) "title")] /\
    type_of nav = Some (Component "Link") /\
    prop_of nav "to" = Some (PStr "/about/") /\
    child_nodes nav = [NVal (JStr "About")].
Proof.
  intros Hout. destruct (metadata_missing data) eqn:H.
  - by rewrite render_throws in Hout.
  - rewrite render_reads in Hout by done. injection Hout as <-.
    do 3 eexists. by repeat split.
Qed.

Lemma links_go_home_and_about_witness :
  exists header nav heading,
    child_nodes
      (NElem (Host "div") {[ "css" := container_css one_rem ]}
        [ NElem (Component "Link") {[ "to" := PStr "/" ]}
            [ NElem (Host "h3") {[ "css" := heading_css one_rem ]}
                [ NVal (JStr "Writing Idiomatic Python") ] ];
          NElem (Component "Link") {[ "to" := PStr "/about/"; "css" := about_css ]}
            [ NVal (JStr "About") ];
          NVal (JStr "page") ])
      = [header; nav; NVal (JStr "page")] /\
    type_of header = Some (Component "Link") /\
    prop_of header "to" = Some (PStr "/") /\
    child_nodes header = [heading] /\
    type_of heading = Some (Host "h3") /\
    child_nodes heading =
      [NVal (peek (metadata_of (query_data {| title := "Writing Idiomatic Python" |})) "title")] /\
    type_of nav = Some (Component "Link") /\
    prop_of nav "to" = Some (PStr "/about/") /\
    child_nodes nav = [NVal (JStr "About")].
Proof.
  apply (links_go_home_and_about one_rem (NVal (JStr "page"))
           (query_data {| title := "Writing Idiomatic Python" |})).
  reflexivity.
Defined.

End LayoutFacts.

(** ** The pages and the configuration *)

Module ContentFacts.
Import JS Config Content.

(** Each page is the front-matter of its document, then the body. *)
Lemma pages_state_documents (body_cs body_wd body_ga body_oc : string) :
  (pages body_cs body_wd body_ga body_oc).*2 =
  (fun d => front_matter (title d) (date d) (order d) +:+ body d)
    <$> documents body_cs body_wd body_ga body_oc.
Proof. reflexivity. Qed.

(** C6. Over the four pages of the site, no two documents have the same
    [order] (they are 1, 2, 4 and 3) and every [date] names a day of the
    calendar. *)
Theorem orders_unique_dates_valid (body_cs body_wd body_ga body_oc : string) :
  order <$> documents body_cs body_wd body_ga body_oc = [1; 2; 4; 3] /\
  NoDup (order <$> documents body_cs body_wd body_ga body_oc) /\
  Forall (fun d => valid_calendar_date (Content.date d) = true)
    (documents body_cs body_wd body_ga body_oc) /\
  (pages body_cs body_wd body_ga body_oc).*2 =
    (fun d => front_matter (Content.title d) (Content.date d) (order d) +:+ body d)
      <$> documents body_cs body_wd body_ga body_oc.
Proof.
  split; [reflexivity|]. split; [|split].
  - apply (bool_decide_unpack _). by vm_compute.
  - repeat constructor.
  - apply pages_state_documents.
Qed.

(** C8. Every one of the four pages begins with a front-matter block that
    gives exactly the keys title, date and order, then its Markdown body:
    the text is the delimiter, one line for each of the three keys, the
    delimiter and the body.  The title is text with no line feed and no
    double quote in it, so that its line holds it and nothing else; the date
    is an ISO date that names a day of the calendar; the order is an
    integer.  And the site metadata of the configuration is one key,
    [title], bound to a string. *)
Theorem pages_and_metadata_well_formed (body_cs body_wd body_ga body_oc : string) :
  Forall (fun file => exists (title date : string) (order : Z) (body : string),
            file.2 = unlines [ delimiter;
                               "title: " +:+ quoted title;
                               "date: " +:+ quoted date;
                               "order: " +:+ show_int order;
                               delimiter ] +:+ body /\
            file.2 = front_matter title date order +:+ body /\
            Forall (fun c => c <> newline /\ c <> dquote)
              (String.list_ascii_of_string title) /\
            Forall (fun c => c <> newline /\ c <> dquote)
              (String.list_ascii_of_string date) /\
            Forall (fun c => c <> newline)
              (String.list_ascii_of_string (show_int order)) /\
            valid_calendar_date date = true)
    (pages body_cs body_wd body_ga body_oc) /\
  length (pages body_cs body_wd body_ga body_oc) = 4%nat /\
  exists (fields : gmap string jsval) (s : string),
    siteMetadata = JObj fields /\
    dom fields = {[ "title" ]} /\
    fields !! "title" = Some (JStr s) /\
    site_metadata siteMetadata = Some {| Config.title := s |}.
Proof.
  split; [|split; [reflexivity|]].
  - repeat apply Forall_cons_2; [| | | |apply Forall_nil_2].
    + exists "Control Structures and Functions", "2019-02-06", 1, body_cs.
      repeat split; try reflexivity; apply (bool_decide_unpack _); by vm_compute.
    + exists "Working with Data", "2019-02-06", 2, body_wd.
      repeat split; try reflexivity; apply (bool_decide_unpack _); by vm_compute.
    + exists "General Advice", "2019-02-09", 4, body_ga.
      repeat split; try reflexivity; apply (bool_decide_unpack _); by vm_compute.
    + exists "Organizing Your Code", "2019-02-09", 3, body_oc.
      repeat split; try reflexivity; apply (bool_decide_unpack _); by vm_compute.
  - do 2 eexists. split; [reflexivity|]. split; [|split].
    + apply dom_singleton_L.
    + reflexivity.
    + reflexivity.
Qed.

End ContentFacts.

(** ** The Page Resolver *)

Module ResolverFacts.
Import JS React Content Resolver.

Lemma doc_leb_le (a b : Document) : doc_leb a b = true <-> doc_le a b.
Proof.
  unfold doc_leb, doc_le, String.le.
  rewrite orb_true_iff, andb_true_iff, !bool_decide_eq_true, Is_true_true.
  reflexivity.
Qed.

#[local] Instance doc_le_total : Total doc_le.
Proof.
  intros a b. unfold doc_le.
  destruct (Z.lt_trichotomy (order a) (order b)) as [?|[?|?]]; [auto| |auto].
  destruct (total String.le (title a) (title b)); auto.
Qed.

#[local] Instance doc_le_trans : Transitive doc_le.
Proof.
  intros a b c [?|[? Hab]] [?|[? Hbc]]; unfold doc_le; [left; lia..|].
  right. split; [lia|]. by trans (title b).
Qed.

Lemma doc_le_same_key (a b : Document) : sort_key a = sort_key b -> doc_le a b.
Proof. unfold sort_key. intros [= Ho Ht]. right. by rewrite Ht. Qed.

Lemma doc_le_antisym (a b : Document) :
  doc_le a b -> doc_le b a -> sort_key a = sort_key b.
Proof.
  unfold sort_key. intros [?|[Ho Hab]] [?|[? Hba]]; try lia.
  f_equal; [done|]. by apply (anti_symm String.le).
Qed.

Lemma insert_Permutation (d : Document) (l : list Document) :
  insert d l ≡ₚ d :: l.
Proof.
  induction l as [|x l IH]; cbn; [done|].
  destruct (doc_leb d x); [done|].
  rewrite IH. apply Permutation_swap.
Qed.

Lemma sort_documents_Permutation (docs : list Document) :
  sort_documents docs ≡ₚ docs.
Proof.
  induction docs as [|d docs IH]; cbn; [done|].
  rewrite insert_Permutation. by f_equiv.
Qed.

Lemma insert_sorted (d : Document) (l : list Document) :
  StronglySorted doc_le l -> StronglySorted doc_le (insert d l).
Proof.
  induction 1 as [|x l Hl IH Hx]; cbn.
  - repeat constructor.
  - destruct (doc_leb d x) eqn:Hdx.
    + apply doc_leb_le in Hdx. constructor; [by constructor|].
      constructor; [done|].
      eapply Forall_impl; [exact Hx|]. intros y Hy. by trans x.
    + constructor; [done|].
      rewrite insert_Permutation. constructor; [|done].
      destruct (total doc_le d x) as [Hle|Hle]; [|done].
      apply doc_leb_le in Hle. congruence.
Qed.

Lemma sort_documents_sorted (docs : list Document) :
  StronglySorted doc_le (sort_documents docs).
Proof.
  induction docs as [|d docs IH]; cbn; [constructor|].
  by apply insert_sorted.
Qed.

(** Inserting does not move a document past one with the same key. *)
Lemma filter_insert (k : Z * string) (d : Document) (l : list Document) :
  filter (fun x => sort_key x = k) (insert d l) =
  filter (fun x => sort_key x = k) (d :: l).
Proof.
  induction l as [|x l IH]; cbn [insert]; [done|].
  destruct (doc_leb d x) eqn:Hdx; [done|].
  rewrite filter_cons, IH, !filter_cons.
  destruct (decide (sort_key x = k)) as [Hx|]; [|done].
  destruct (decide (sort_key d = k)) as [Hd|]; [|done].
  assert (doc_leb d x = true); [|congruence].
  apply doc_leb_le, doc_le_same_key. congruence.
Qed.

Lemma sort_documents_stable (k : Z * string) (docs : list Document) :
  filter (fun x => sort_key x = k) (sort_documents docs) =
  filter (fun x => sort_key x = k) docs.
Proof.
  induction docs as [|d docs IH]; cbn [sort_documents foldr]; [done|].
  rewrite filter_insert, !filter_cons.
  fold (sort_documents docs). by rewrite IH.
Qed.

(** Two sorted arrangements of the same documents are the same list when no
    two documents share a key. *)
Lemma sorted_unique (l1 l2 : list Document) :
  StronglySorted doc_le l1 -> StronglySorted doc_le l2 ->
  l1 ≡ₚ l2 -> NoDup (sort_key <$> l1) -> l1 = l2.
Proof.
  intros H1. revert l2.
  induction H1 as [|a l1 Hl1 IH Ha]; intros l2 H2 Hperm Hnd.
  { by apply Permutation_nil_l in Hperm. }
  destruct H2 as [|b l2 Hl2 Hb].
  { by apply Permutation_nil_r in Hperm. }
  apply NoDup_cons in Hnd as [Hnotin Hnd].
  assert (a = b) as <-.
  { assert (a ∈ b :: l2) as Hin1 by (rewrite <- Hperm; left).
    assert (b ∈ a :: l1) as Hin2 by (rewrite Hperm; left).
    apply elem_of_cons in Hin1 as [?|Hin1]; [done|].
    apply elem_of_cons in Hin2 as [?|Hin2]; [done|].
    rewrite Forall_forall in Ha, Hb.
    destruct Hnotin. rewrite (doc_le_antisym a b) by auto.
    by apply list_elem_of_fmap_2. }
  f_equal. apply IH; [done| |done].
  by apply (inj (cons a)).
Qed.

Lemma sort_documents_Permutation_invariant (docs docs' : list Document) :
  docs' ≡ₚ docs -> NoDup (sort_key <$> docs) ->
  sort_documents docs' = sort_documents docs.
Proof.
  intros Hperm Hnd. apply sorted_unique.
  - apply sort_documents_sorted.
  - apply sort_documents_sorted.
  - by rewrite !sort_documents_Permutation.
  - by rewrite sort_documents_Permutation, Hperm.
Qed.

(** In a sorted sequence the document with the smaller [order] stands
    first. *)
Lemma sorted_before (l : list Document) (a b : Document) :
  StronglySorted doc_le l -> a ∈ l -> b ∈ l -> order a < order b ->
  exists l1 l2 l3, l = l1 ++ a :: l2 ++ b :: l3.
Proof.
  intros Hl Ha Hb Hlt.
  apply list_elem_of_split in Ha as (l1 & r & ->).
  apply elem_of_app in Hb as [Hb|Hb].
  - exfalso.
    assert (doc_le b a) as [?|[? _]]; [|lia..].
    eapply StronglySorted_app_1_elem_of; [exact Hl|done|left].
  - apply elem_of_cons in Hb as [->|Hb]; [lia|].
    apply list_elem_of_split in Hb as (l2 & l3 & ->). eauto.
Qed.

Section Pages.

Variable derive_route : Document -> string.
Variable render_markdown : string -> node.

Lemma page_resolver_Ok (docs : list Document) :
  NoDup (derive_route <$> docs) ->
  page_resolver derive_route render_markdown docs =
  Ok (resolve derive_route render_markdown <$> sort_documents docs).
Proof. unfold page_resolver. intros H. by rewrite decide_True. Qed.

Lemma document_resolve (docs : list Document) :
  document <$> (resolve derive_route render_markdown <$> docs) = docs.
Proof. rewrite <- list_fmap_compose. apply list_fmap_id. Qed.

End Pages.

(** C2. For every set of documents whose routes do not collide, the Page
    Resolver produces the pages of exactly these documents (those of equal
    [order] included), ascending by [order] and, within one [order], by
    title; documents that agree on both keep the order they came in; and
    when the titles settle every tie, the sequence is the same however the
    set was listed. *)
Theorem page_resolver_sorted
    (derive_route : Document -> string) (render_markdown : string -> node)
    (docs : list Document) :
  NoDup (derive_route <$> docs) ->
  exists pages,
    page_resolver derive_route render_markdown docs = Ok pages /\
    document <$> pages ≡ₚ docs /\
    StronglySorted doc_le (document <$> pages) /\
    (forall k, filter (fun d => sort_key d = k) (document <$> pages) =
               filter (fun d => sort_key d = k) docs) /\
    (NoDup (sort_key <$> docs) ->
     forall docs', docs' ≡ₚ docs ->
       page_resolver derive_route render_markdown docs' = Ok pages).
Proof.
  intros Hroutes. eexists. split; [by apply page_resolver_Ok|].
  rewrite document_resolve. repeat split.
  - apply sort_documents_Permutation.
  - apply sort_documents_sorted.
  - intros k. apply sort_documents_stable.
  - intros Hkeys docs' Hperm. rewrite page_resolver_Ok.
    + by rewrite (sort_documents_Permutation_invariant docs docs').
    + by rewrite Hperm.
Qed.

Lemma page_resolver_sorted_witness :
  exists pages,
    page_resolver title_route plain
      [general_advice contents; control_structures_and_functions contents;
       control_structures] = Ok pages /\
    document <$> pages ≡ₚ
      [general_advice contents; control_structures_and_functions contents;
       control_structures] /\
    StronglySorted doc_le (document <$> pages) /\
    (forall k, filter (fun d => sort_key d = k) (document <$> pages) =
               filter (fun d => sort_key d = k)
                 [general_advice contents; control_structures_and_functions contents;
                  control_structures]) /\
    (NoDup (sort_key <$>
       [general_advice contents; control_structures_and_functions contents;
        control_structures]) ->
     forall docs', docs' ≡ₚ
       [general_advice contents; control_structures_and_functions contents;
        control_structures] ->
       page_resolver title_route plain docs' = Ok pages).
Proof.
  apply (page_resolver_sorted title_route plain).
  apply (bool_decide_unpack _). by vm_compute.
Defined.

(** C1. Whatever else the content set holds, the page of the document of
    order 1 (Control Structures and Functions) comes before the page of the
    document of order 4 (General Advice) in the sequence the Page Resolver
    produces. *)
Theorem control_structures_before_general_advice
    (derive_route : Document -> string) (render_markdown : string -> node)
    (body_cs body_ga : string) (docs : list Document) :
  control_structures_and_functions body_cs ∈ docs ->
  general_advice body_ga ∈ docs ->
  NoDup (derive_route <$> docs) ->
  exists pages l1 l2 l3,
    page_resolver derive_route render_markdown docs = Ok pages /\
    document <$> pages =
      l1 ++ control_structures_and_functions body_cs :: l2 ++ general_advice body_ga :: l3.
Proof.
  intros Hcs Hga Hroutes.
  destruct (sorted_before (sort_documents docs)
              (control_structures_and_functions body_cs) (general_advice body_ga))
    as (l1 & l2 & l3 & Hsplit).
  - apply sort_documents_sorted.
  - by rewrite sort_documents_Permutation.
  - by rewrite sort_documents_Permutation.
  - cbn. lia.
  - eexists _, l1, l2, l3. split; [by apply page_resolver_Ok|].
    by rewrite document_resolve.
Qed.

Lemma control_structures_before_general_advice_witness :
  exists pages l1 l2 l3,
    page_resolver title_route plain
      [general_advice contents; control_structures_and_functions contents] = Ok pages /\
    document <$> pages =
      l1 ++ control_structures_and_functions contents :: l2 ++ general_advice contents :: l3.
Proof.
  apply (control_structures_before_general_advice title_route plain).
  - apply (bool_decide_unpack _). by vm_compute.
  - apply (bool_decide_unpack _). by vm_compute.
  - apply (bool_decide_unpack _). by vm_compute.
Defined.

(** Two pages of the sources, General Advice listed first, resolve to
    Control Structures and Functions first, General Advice second. *)
Example resolve_the_two_pages :
  page_resolver title_route plain
    [general_advice contents; control_structures_and_functions contents] =
  Ok (resolve title_route plain
        <$> [control_structures_and_functions contents; general_advice contents]).
Proof. by vm_compute. Qed.

End ResolverFacts.

(** ** The Front-Matter Parser *)

Module FrontMatterFacts.
Import JS Content FrontMatter.

(** *** Text *)

Lemma app_cons (c : ascii) (s t : string) : String c s +:+ t = String c (s +:+ t).
Proof. reflexivity. Qed.

Lemma app_nil_l (s : string) : "" +:+ s = s.
Proof. reflexivity. Qed.

Lemma app_nil_r (s : string) : s +:+ "" = s.
Proof. induction s as [|c s IH]; [done|]. by rewrite app_cons, IH. Qed.

Lemma app_assoc (s t u : string) : (s +:+ t) +:+ u = s +:+ (t +:+ u).
Proof. induction s as [|c s IH]; [done|]. by rewrite !app_cons, IH. Qed.

Lemma newline_free_cons (c : ascii) (s : string) :
  newline_free (String c s) = true <-> c <> newline /\ newline_free s = true.
Proof.
  cbn. rewrite andb_true_iff, negb_true_iff, bool_decide_eq_false. reflexivity.
Qed.

Lemma newline_free_app (s t : string) :
  newline_free (s +:+ t) = true <-> newline_free s = true /\ newline_free t = true.
Proof.
  induction s as [|c s IH]; [rewrite app_nil_l; cbn; tauto|].
  rewrite app_cons, !newline_free_cons, IH. tauto.
Qed.

Lemma unlines_app (lines : list string) (rest : string) :
  unlines lines +:+ rest = foldr (fun l acc => l +:+ String newline acc) rest lines.
Proof.
  induction lines as [|l lines IH]; [done|].
  cbn. by rewrite app_assoc, app_cons, IH.
Qed.

(** *** The metadata block *)

(** Reading one whole line. *)
Lemma metadata_block_line (line l rest : string) :
  newline_free l = true ->
  metadata_block line (l +:+ String newline rest) =
  if decide (line +:+ l = delimiter) then Some ([], rest)
  else '(lines, body) ← metadata_block "" rest; Some ((line +:+ l) :: lines, body).
Proof.
  revert line. induction l as [|c l IH]; intros line Hl.
  - rewrite app_nil_r, app_nil_l. cbn [metadata_block]. by rewrite decide_True.
  - apply newline_free_cons in Hl as [Hc Hl].
    rewrite app_cons. cbn [metadata_block]. rewrite decide_False by done.
    rewrite IH by done. by rewrite app_assoc.
Qed.

Lemma metadata_block_newline_free (line rest : string) lines body :
  metadata_block line rest = Some (lines, body) ->
  newline_free line = true ->
  Forall (fun l => newline_free l = true) lines.
Proof.
  revert line lines. induction rest as [|c rest IH]; intros line lines; cbn.
  - case_decide; [|done]. by intros [= <- <-].
  - destruct (decide (c = newline)) as [->|Hc].
    + case_decide; [by intros [= <- <-]|].
      destruct (metadata_block "" rest) as [[lines' body']|] eqn:Hrest; [|done].
      cbn. intros [= <- <-] Hline. constructor; [done|]. by eapply IH.
    + intros Hblock Hline. eapply IH; [done|].
      apply newline_free_app. split; [done|]. by apply newline_free_cons.
Qed.

(** *** Keys and values *)

Lemma split_colon_newline_free (s k v : string) :
  split_colon s = Some (k, v) -> newline_free s = true -> newline_free v = true.
Proof.
  revert k. induction s as [|c s IH]; intros k; cbn [split_colon]; [done|].
  intros Hsplit [_ Hs]%newline_free_cons.
  case_decide; [by simplify_eq|].
  destruct (split_colon s) as [[k' v']|]; [|done].
  cbn in Hsplit. simplify_eq. by eapply IH.
Qed.

Lemma trim_left_newline_free (s : string) :
  newline_free s = true -> newline_free (trim_left s) = true.
Proof.
  induction s as [|c s IH]; [done|]. cbn [trim_left].
  case_decide; [|done]. intros [_ ?]%newline_free_cons. auto.
Qed.

Lemma key_value_newline_free (line k v : string) :
  key_value line = Some (k, v) -> newline_free line = true -> newline_free v = true.
Proof.
  unfold key_value. intros Hkv Hline.
  destruct (split_colon line) as [[k' v']|] eqn:Hsplit; [|done].
  cbn in Hkv. simplify_eq.
  eapply trim_left_newline_free, split_colon_newline_free; eauto.
Qed.

Lemma strip_last_snoc (s : string) (c : ascii) :
  strip_last (s +:+ String c "") = Some (s, c).
Proof.
  induction s as [|a s IH]; [done|].
  rewrite app_cons. cbn [strip_last]. rewrite IH.
  by destruct s.
Qed.

Lemma strip_last_Some (s init : string) (c : ascii) :
  strip_last s = Some (init, c) -> s = init +:+ String c "".
Proof.
  revert init. induction s as [|a s IH]; intros init; [done|].
  cbn [strip_last]. destruct s as [|b s]; [by intros [= <- <-]|].
  destruct (strip_last (String b s)) as [[init' c']|]; [|done].
  cbn. intros [= <- <-]. by rewrite app_cons, <- IH.
Qed.

Lemma unquote_quoted (s : string) : unquote (quoted s) = Some s.
Proof.
  unfold unquote, quoted. rewrite decide_True by done.
  rewrite strip_last_snoc. cbn. by rewrite decide_True.
Qed.

Lemma unquote_Some (v s : string) : unquote v = Some s -> v = quoted s.
Proof.
  unfold unquote, quoted. destruct v as [|c rest]; [done|].
  case_decide as Hc; [|done]. subst c.
  destruct (strip_last rest) as [[inner last]|] eqn:Hrest; [|done].
  cbn. case_decide as Hl; [|done]. subst last. intros [= <-].
  by rewrite (strip_last_Some _ _ _ Hrest).
Qed.

Lemma unquote_newline_free (v s : string) :
  unquote v = Some s -> newline_free v = true -> newline_free s = true.
Proof.
  intros ->%unquote_Some. unfold quoted.
  intros [_ [? _]%newline_free_app]%newline_free_cons. done.
Qed.

(** *** Integers *)

Lemma read_show_int (z : Z) : read_int (show_int z) = Some z.
Proof.
  unfold read_int, show_int. rewrite NilZero.isi.
  - cbn. by rewrite DecimalZ.of_to.
  - destruct z; cbn; try done.
    intros [= H]. by apply Unsigned.to_uint_nonnil in H.
  - destruct z; cbn; try done.
    intros [= H]. by apply Unsigned.to_uint_nonnil in H.
Qed.

Lemma string_of_uint_newline_free (d : Decimal.uint) :
  newline_free (NilEmpty.string_of_uint d) = true.
Proof. induction d; cbn; auto. Qed.

Lemma show_int_newline_free (z : Z) : newline_free (show_int z) = true.
Proof.
  unfold show_int, NilZero.string_of_int, NilZero.string_of_uint.
  destruct (Z.to_int z) as [[]|[]]; try done;
    cbn [NilEmpty.string_of_uint];
    repeat (apply newline_free_cons; split; [done|]);
    apply string_of_uint_newline_free.
Qed.

Lemma trim_left_show_int (z : Z) : trim_left (show_int z) = show_int z.
Proof.
  unfold show_int, NilZero.string_of_int, NilZero.string_of_uint.
  by destruct (Z.to_int z) as [[]|[]].
Qed.

(** *** Reading what was written *)

Lemma metadata_front_matter (title date : string) (order : Z) (body : string) :
  newline_free title = true -> newline_free date = true ->
  metadata (front_matter title date order +:+ body) =
  Some (list_to_map [ ("title", quoted title); ("date", quoted date);
                      ("order", show_int order) ], body).
Proof.
  intros Htitle Hdate. unfold metadata, front_matter.
  rewrite unlines_app. cbn [foldr].
  replace (strip_prefix _ _) with
    (Some (("title: " +:+ quoted title) +:+ String newline
            (("date: " +:+ quoted date) +:+ String newline
              (("order: " +:+ show_int order) +:+ String newline
                (delimiter +:+ String newline body))))) by reflexivity.
  cbn [mbind option_bind].
  assert (newline_free (quoted title) = true /\ newline_free (quoted date) = true)
    as [Hqtitle Hqdate].
  { unfold quoted. rewrite !newline_free_cons, !newline_free_app. by repeat split. }
  rewrite metadata_block_line by (by apply newline_free_app).
  rewrite decide_False by done.
  rewrite metadata_block_line by (by apply newline_free_app).
  rewrite decide_False by done.
  rewrite metadata_block_line
    by (apply newline_free_app; split; [done|apply show_int_newline_free]).
  rewrite decide_False by done.
  rewrite metadata_block_line, decide_True by done.
  cbn [mbind option_bind].
  replace (mapM key_value _) with
    (Some [ ("title", quoted title); ("date", quoted date);
            ("order", trim_left (show_int order)) ]) by reflexivity.
  by rewrite trim_left_show_int.
Qed.

(** Writing a document and reading it back. *)
Lemma parse_serialize (d : Document) :
  newline_free (title d) = true -> newline_free (date d) = true ->
  valid_calendar_date (date d) = true ->
  parse (serialize d) = Ok d.
Proof.
  intros Htitle Hdate Hvalid. unfold parse, serialize.
  rewrite metadata_front_matter by done. cbn [require mbind result_bind].
  replace (_ !! "title") with (Some (quoted (title d))) by reflexivity.
  replace (_ !! "date") with (Some (quoted (date d))) by reflexivity.
  replace (_ !! "order") with (Some (show_int (order d))) by reflexivity.
  cbn [mbind option_bind]. unfold parse_date.
  rewrite !unquote_quoted. cbn [mbind option_bind]. rewrite Hvalid.
  rewrite read_show_int. by destruct d.
Qed.

(** What a successful parse has read. *)
Lemma parse_Ok_inv (raw : string) (d : Document) :
  parse raw = Ok d ->
  exists meta vt vd vo,
    metadata raw = Some (meta, body d) /\
    meta !! "title" = Some vt /\ unquote vt = Some (title d) /\
    meta !! "date" = Some vd /\ parse_date vd = Some (date d) /\
    meta !! "order" = Some vo /\ read_int vo = Some (order d).
Proof.
  unfold parse.
  destruct (metadata raw) as [[meta body]|]; [|done]. cbn [require mbind result_bind].
  destruct (meta !! "title") as [vt|] eqn:Ht; [|done]. cbn [mbind option_bind].
  destruct (unquote vt) as [t|] eqn:Hvt; [|done]. cbn [require mbind result_bind].
  destruct (meta !! "date") as [vd|] eqn:Hd; [|done]. cbn [mbind option_bind].
  destruct (parse_date vd) as [dt|] eqn:Hvd; [|done]. cbn [require mbind result_bind].
  destruct (meta !! "order") as [vo|] eqn:Ho; [|done]. cbn [mbind option_bind].
  destruct (read_int vo) as [o|] eqn:Hvo; [|done]. cbn [require mbind result_bind].
  intros [= <-]. by exists meta, vt, vd, vo.
Qed.

Lemma parse_Throw (raw : string) (e : error) :
  parse raw = Throw e -> e = MalformedMetadataError.
Proof.
  unfold parse.
  destruct (metadata raw) as [[meta body]|]; cbn; [|congruence].
  destruct (meta !! "title" ≫= unquote); cbn; [|congruence].
  destruct (meta !! "date" ≫= parse_date); cbn; [|congruence].
  destruct (meta !! "order" ≫= read_int); cbn; [done|congruence].
Qed.

Lemma metadata_newline_free (raw : string) meta body (k v : string) :
  metadata raw = Some (meta, body) -> meta !! k = Some v ->
  newline_free v = true.
Proof.
  unfold metadata.
  destruct (strip_prefix _ raw) as [rest|]; [|done]. cbn [mbind option_bind].
  destruct (metadata_block "" rest) as [[lines body']|] eqn:Hblock; [|done].
  cbn [mbind option_bind].
  destruct (mapM key_value lines) as [pairs|] eqn:Hpairs; [|done].
  cbn. intros [= <- <-] Hv.
  apply elem_of_list_to_map_2 in Hv.
  apply mapM_Some in Hpairs.
  apply list_elem_of_lookup in Hv as [i Hi].
  destruct (Forall2_lookup_r _ _ _ _ _ Hpairs Hi) as (line & Hline & Hkv).
  eapply key_value_newline_free; [exact Hkv|].
  apply metadata_block_newline_free in Hblock; [|done].
  rewrite Forall_forall in Hblock. apply Hblock.
  by eapply list_elem_of_lookup_2.
Qed.

(** C7. When the front-matter of a document is well formed, so that the
    parser reads a document from it, serializing that document again and
    parsing the result gives the same title, date and order (and the same
    body). *)
Theorem parse_serialize_round_trip (raw : string) (d : Document) :
  parse raw = Ok d -> parse (serialize d) = Ok d.
Proof.
  intros (meta & vt & vd & vo & Hmeta & Ht & Hvt & Hd & Hvd & _)%parse_Ok_inv.
  unfold parse_date in Hvd.
  destruct (unquote vd) as [dt|] eqn:Hdt; [|done]. cbn in Hvd.
  destruct (valid_calendar_date dt) eqn:Hvalid; [|done]. simplify_eq.
  apply parse_serialize; [| |done].
  - eapply unquote_newline_free, metadata_newline_free; eauto.
  - eapply unquote_newline_free, metadata_newline_free; eauto.
Qed.

Lemma parse_serialize_round_trip_witness :
  parse (serialize (general_advice contents)) = Ok (general_advice contents).
Proof.
  apply (parse_serialize_round_trip (general_advice_md contents)).
  by vm_compute.
Defined.

End FrontMatterFacts.

(** ** The Site Renderer *)

Module SiteFacts.
Import JS React Config Content FrontMatter Resolver Layout Site FrontMatterFacts.

Lemma parsed_app (files1 files2 : list (string * string)) :
  parsed (files1 ++ files2) = parsed files1 ++ parsed files2.
Proof. apply omap_app. Qed.

(** A file that does not parse adds no document. *)
Lemma parsed_cons_Throw (name raw : string) (e : error) (files : list (string * string)) :
  parse raw = Throw e -> parsed ((name, raw) :: files) = parsed files.
Proof. unfold parsed. cbn. by intros ->. Qed.

Lemma failures_elem_of (name raw : string) (e : error) (files : list (string * string)) :
  (name, raw) ∈ files -> parse raw = Throw e -> FileFailed name e ∈ failures files.
Proof.
  intros Hin Hparse. apply list_elem_of_omap. exists (name, raw).
  split; [done|]. cbn. by rewrite Hparse.
Qed.

Section Build.

Variable rhythm : Q -> string.
Variable derive_route : Document -> string.
Variable render_markdown : string -> node.

(** The output is made of the documents that parsed and of nothing else. *)
Lemma output_build (data : jsval) (files : list (string * string)) :
  output (build rhythm derive_route render_markdown data files) =
  match pages ← page_resolver derive_route render_markdown (parsed files);
        mapM (compose rhythm data) pages with
  | Ok out => out
  | Throw _ => []
  end.
Proof. unfold build. by destruct (_ ≫= _). Qed.

Lemma reports_build (data : jsval) (files : list (string * string)) (r : report) :
  r ∈ failures files ->
  r ∈ reports (build rhythm derive_route render_markdown data files).
Proof.
  unfold build. destruct (_ ≫= _); cbn; [done|].
  intros ?. apply elem_of_app. by left.
Qed.

End Build.

(** C5. A document whose front-matter lacks one of the keys title, date and
    order, or whose date is not a quoted date of the calendar, fails to parse
    with [MalformedMetadataError]; the build's output is what it is without
    that file, and the build reports the file with that error. *)
Theorem malformed_front_matter_is_reported
    (rhythm : Q -> string) (derive_route : Document -> string)
    (render_markdown : string -> node) (data : jsval)
    (before after : list (string * string)) (name raw : string) :
  (exists key, key ∈ required_keys /\ field raw key = None) \/
  (exists v, field raw "date" = Some v /\ parse_date v = None) ->
  parse raw = Throw MalformedMetadataError /\
  output (build rhythm derive_route render_markdown data (before ++ (name, raw) :: after)) =
    output (build rhythm derive_route render_markdown data (before ++ after)) /\
  FileFailed name MalformedMetadataError ∈
    reports (build rhythm derive_route render_markdown data (before ++ (name, raw) :: after)).
Proof.
  intros Hbad.
  assert (parse raw = Throw MalformedMetadataError) as Hparse.
  { destruct (parse raw) as [d|e] eqn:Hparse.
    - exfalso.
      apply parse_Ok_inv in Hparse
        as (meta & vt & vd & vo & Hmeta & Ht & _ & Hd & Hvd & Ho & _).
      unfold field in Hbad. rewrite Hmeta in Hbad. cbn in Hbad.
      destruct Hbad as [(key & Hkey & Hnone)|(v & Hv & Hnone)].
      + unfold required_keys in Hkey.
        repeat (apply elem_of_cons in Hkey as [->|Hkey]; [congruence|]).
        by apply elem_of_nil in Hkey.
      + congruence.
    - by rewrite (parse_Throw raw e). }
  split; [done|]. split.
  - rewrite !output_build, !parsed_app.
    by rewrite (parsed_cons_Throw _ _ _ _ Hparse).
  - apply reports_build. eapply failures_elem_of; [|done].
    apply elem_of_app. right. left.
Qed.

Lemma malformed_front_matter_is_reported_witness :
  parse undated_md = Throw MalformedMetadataError /\
  output (build one_rem title_route plain
            (query_data {| Config.title := "Writing Idiomatic Python" |})
            (pages contents contents contents contents ++ [("undated.md", undated_md)])) =
    output (build one_rem title_route plain
              (query_data {| Config.title := "Writing Idiomatic Python" |})
              (pages contents contents contents contents ++ [])) /\
  FileFailed "undated.md" MalformedMetadataError ∈
    reports (build one_rem title_route plain
               (query_data {| Config.title := "Writing Idiomatic Python" |})
               (pages contents contents contents contents ++ [("undated.md", undated_md)])).
Proof.
  apply (malformed_front_matter_is_reported one_rem title_route plain).
  left. exists "date". split.
  - apply (bool_decide_unpack _). by vm_compute.
  - by vm_compute.
Defined.

(** The four pages of the sources build into four outputs, at the routes of
    their titles and in the order of their [order], and nothing is
    reported. *)
Example build_the_four_pages :
  (build one_rem title_route plain
     (query_data {| Config.title := "Writing Idiomatic Python" |})
     (pages contents contents contents contents)).(output).*1 =
    ["/control-structures-and-functions/"; "/working-with-data/";
     "/organizing-your-code/"; "/general-advice/"] /\
  (build one_rem title_route plain
     (query_data {| Config.title := "Writing Idiomatic Python" |})
     (pages contents contents contents contents)).(reports) = [].
Proof. by vm_compute. Qed.

End SiteFacts.

(** ** The about page *)

Module AboutFacts.
Import JS React Config Layout About LayoutFacts.

Lemma About_reads (data : jsval) :
  metadata_missing data = false ->
  exists rest,
    About data =
    Ok (Elem (Component "Layout") ∅
          (Elem (Host "h1") ∅ [ Val (JStr "About "); Val (peek (metadata_of data) "title") ]
           :: rest)).
Proof.
  unfold metadata_missing, metadata_of, About. intros H.
  apply orb_false_elim in H as [H Hmeta].
  apply orb_false_elim in H as [Hdata Hsite].
  rewrite (get_Ok data) by done. cbn [mbind result_bind].
  rewrite (get_Ok (peek data "site")) by done. cbn [mbind result_bind].
  rewrite (get_Ok (peek (peek data "site") "siteMetadata")) by done.
  by eexists.
Qed.

Lemma About_throws (data : jsval) :
  metadata_missing data = true -> About data = Throw TypeError.
Proof.
  unfold metadata_missing, metadata_of, About. intros H.
  destruct (nullish data) eqn:Hdata.
  { by rewrite get_Throw. }
  rewrite (get_Ok data) by done. cbn [mbind result_bind].
  destruct (nullish (peek data "site")) eqn:Hsite.
  { by rewrite get_Throw. }
  rewrite (get_Ok (peek data "site")) by done. cbn [mbind result_bind].
  cbn in H. by rewrite get_Throw.
Qed.

(** X1.  The layout reads nothing of the query result but
    [site.siteMetadata.title]: two results that hold the same title there
    give the same output. *)
Theorem render_reads_only_the_title
    (rhythm : Q -> string) (children : node) (data data' : jsval) :
  metadata_missing data = false ->
  metadata_missing data' = false ->
  peek (metadata_of data) "title" = peek (metadata_of data') "title" ->
  render (Layout rhythm children) data = render (Layout rhythm children) data'.
Proof. intros H H' Htitle. rewrite !render_reads by done. by rewrite Htitle. Qed.

Lemma render_reads_only_the_title_witness :
  render (Layout one_rem (NVal (JStr "page")))
    (query_data {| title := "Writing Idiomatic Python" |}) =
  render (Layout one_rem (NVal (JStr "page")))
    (JObj {[ "site" := JObj {[ "siteMetadata" :=
               JObj {[ "title" := JStr "Writing Idiomatic Python";
                       "author" := JStr "Jeff" ]};
                             "buildTime" := JNum 2019 ]};
             "extensions" := JNull ]}).
Proof.
  apply (render_reads_only_the_title one_rem (NVal (JStr "page"))); reflexivity.
Defined.

(** X2.  The about page fails exactly when its query result, its [site] or its
    [siteMetadata] is [null] or [undefined], with the runtime's [TypeError];
    otherwise it is a [Layout] element whose first child is the heading
    [About] followed by whatever [title] holds. *)
Theorem About_heading (data : jsval) :
  (metadata_missing data = true -> About data = Throw TypeError) /\
  (metadata_missing data = false ->
   exists rest,
     About data =
     Ok (Elem (Component "Layout") ∅
           (Elem (Host "h1") ∅ [ Val (JStr "About "); Val (peek (metadata_of data) "title") ]
            :: rest)) /\
     length rest = 3%nat).
Proof.
  split; [apply About_throws|]. intros H.
  destruct (About_reads data H) as [rest Hrest].
  exists rest. split; [done|].
  unfold metadata_missing, metadata_of, About in *.
  apply orb_false_elim in H as [H Hmeta].
  apply orb_false_elim in H as [Hdata Hsite].
  rewrite (get_Ok data) in Hrest by done. cbn [mbind result_bind] in Hrest.
  rewrite (get_Ok (peek data "site")) in Hrest by done. cbn [mbind result_bind] in Hrest.
  rewrite (get_Ok (peek (peek data "site") "siteMetadata")) in Hrest by done.
  cbn in Hrest. by injection Hrest as <-.
Qed.

(** X3.  The about page and the layout go together: their queries select the same
    fields (they are the same up to white space), they fail on the same query
    results, and from one result the heading of the page and the header of
    the layout show the same title. *)
Theorem About_agrees_with_Layout
    (rhythm : Q -> string) (children : node) (data : jsval) :
  String.words About.query = String.words (Layout.query (Layout rhythm children)) /\
  succeeds (About data) = succeeds (render (Layout rhythm children) data) /\
  (metadata_missing data = false ->
   exists title rest props header_props nav,
     About data =
       Ok (Elem (Component "Layout") ∅
             (Elem (Host "h1") ∅ [ Val (JStr "About "); Val title ] :: rest)) /\
     render (Layout rhythm children) data =
       Ok (NElem (Host "div") props
             [ NElem (Component "Link") {[ "to" := PStr "/" ]}
                 [ NElem (Host "h3") header_props [ NVal title ] ];
               nav; children ])).
Proof.
  split; [by vm_compute|]. split.
  - destruct (metadata_missing data) eqn:H.
    + by rewrite About_throws, render_throws.
    + destruct (About_reads data H) as [rest ->]. by rewrite render_reads.
  - intros H. destruct (About_reads data H) as [rest ->].
    rewrite render_reads by done. by do 5 eexists.
Qed.

End AboutFacts.

(** ** The samples of Control Structures and Functions *)

Module ControlStructuresFacts.
Import Python ControlStructures.

Section Emails.

Context {User Email : Type}.
Variable get_all_email_addresses : User -> list Email.
Variable email_is_malformed : Email -> bool.
Variable str : User -> string.

Lemma for_email_address_else (addresses : list Email) :
  (Harmful.for_email_address email_is_malformed addresses false).2 ++
  (if negb (Harmful.for_email_address email_is_malformed addresses false).1
   then ["All email addresses are valid!"] else []) =
  Idiomatic.for_email_address email_is_malformed addresses.
Proof.
  induction addresses as [|email_address addresses IH]; cbn; [done|].
  by destruct (email_is_malformed email_address).
Qed.

Lemma for_user_same (user : User) :
  Harmful.for_user get_all_email_addresses email_is_malformed str user =
  Idiomatic.for_user get_all_email_addresses email_is_malformed str user.
Proof.
  unfold Harmful.for_user, Idiomatic.for_user.
  rewrite <- for_email_address_else.
  by destruct (Harmful.for_email_address _ _ _).
Qed.

End Emails.

(** X4.  For loops, 3.  Whatever the users, their addresses and the check, the
    loop with the flag and the loop with [else] print the same lines. *)
Theorem check_users_else_same {User Email : Type}
    (get_all_email_addresses : User -> list Email)
    (email_is_malformed : Email -> bool) (str : User -> string)
    (get_all_users : list User) :
  Harmful.check_users get_all_email_addresses email_is_malformed str get_all_users =
  Idiomatic.check_users get_all_email_addresses email_is_malformed str get_all_users.
Proof.
  unfold Harmful.check_users, Idiomatic.check_users.
  apply list_bind_ext; [|done]. apply for_user_same.
Qed.

(** X5.  What one user adds to the output: the line that names the user, then one
    verdict, which is that an address is malformed exactly when one is. *)
Theorem check_users_verdict {User Email : Type}
    (get_all_email_addresses : User -> list Email)
    (email_is_malformed : Email -> bool) (str : User -> string) (user : User) :
  Idiomatic.for_user get_all_email_addresses email_is_malformed str user =
  [ "Checking " +:+ str user;
    if existsb email_is_malformed (get_all_email_addresses user)
    then "Has a malformed email address!"
    else "All email addresses are valid!" ].
Proof.
  unfold Idiomatic.for_user. cbn. f_equal.
  induction (get_all_email_addresses user) as [|email_address addresses IH]; cbn; [done|].
  by destruct (email_is_malformed email_address).
Qed.

Section Default.

Context {A : Type}.

Lemma prints_shared (arguments : list A) (heap : gmap loc (list A)) (shared : loc)
    (items : list A) :
  heap !! shared = Some items ->
  prints (Harmful.f shared) arguments heap =
  (fun n => items ++ take n arguments) <$> seq 1 (length arguments).
Proof.
  revert heap items. induction arguments as [|a arguments IH]; intros heap items Hitems.
  { done. }
  cbn [prints Harmful.f from_option length seq fmap list_fmap].
  unfold append. rewrite lookup_alter_eq, Hitems. cbn [fmap option_fmap option_map default].
  f_equal.
  rewrite (IH _ (items ++ [a])); last by rewrite lookup_alter_eq, Hitems.
  rewrite <- (fmap_S_seq 1), <- list_fmap_compose.
  apply list_fmap_ext. intros _ n _. cbn. by rewrite <- app_assoc.
Qed.

End Default.

(** X6.  Functions, 1, Harmful.  The calls that leave [L] out share the one list
    made when [f] was defined: the n-th [print(f(a))] prints all the
    arguments given so far. *)
Theorem f_default_is_shared {A : Type} (heap : gmap loc (list A)) (arguments : list A) :
  prints (Harmful.f (Harmful.def_f heap).2) arguments (Harmful.def_f heap).1 =
  (fun n => take n arguments) <$> seq 1 (length arguments).
Proof.
  rewrite (prints_shared arguments _ _ []); [done|].
  unfold Harmful.def_f, new_list. cbn. apply lookup_insert_eq.
Qed.

(** X7.  Functions, 1, Idiomatic.  Each call that leaves [L] out prints a list
    that holds its own argument and nothing else. *)
Theorem f_default_is_fresh {A : Type} (heap : gmap loc (list A)) (arguments : list A) :
  prints Idiomatic.f arguments heap = (fun a => [a]) <$> arguments.
Proof.
  revert heap. induction arguments as [|a arguments IH]; intros heap; [done|].
  cbn [prints Idiomatic.f new_list fmap list_fmap].
  unfold append. rewrite lookup_alter_eq, lookup_insert_eq. cbn.
  f_equal. apply IH.
Qed.

(** X8.  Functions, 1, Idiomatic.  The list such a call returns is none of the
    lists there were, and every one of those is left as it was. *)
Theorem f_default_leaves_lists {A : Type} (heap : gmap loc (list A)) (a : A) :
  ((Idiomatic.f a None heap).2 ∉ dom heap) /\
  ((Idiomatic.f a None heap).1 !! (Idiomatic.f a None heap).2 = Some [a]) /\
  (forall L, L ∈ dom heap -> (Idiomatic.f a None heap).1 !! L = heap !! L).
Proof.
  cbn [Idiomatic.f new_list fst snd]. unfold append.
  pose proof (is_fresh (dom heap)) as Hfresh.
  split; [done|]. split.
  - by rewrite lookup_alter_eq, lookup_insert_eq.
  - intros L HL.
    rewrite lookup_alter_ne, lookup_insert_ne; [done| |]; by intros <-.
Qed.

(** X9.  Exceptions, 2.  Neither version ever raises, and a missing key
    gives [None]: without [ENABLE_LOGGING] both return [None]; with it, the
    first returns the level when the entry equals [True], the second when
    the entry is true, and [None] otherwise; and the level of a dictionary
    without [DEFAULT_LOG_LEVEL] is [None]. *)
Theorem get_log_level_never_raises (config_dict : gmap string pyval) :
  Harmful.get_log_level config_dict =
    Return (match config_dict !! "ENABLE_LOGGING" with
            | Some enable_logging =>
                if equals enable_logging (PBool true)
                then default PNone (config_dict !! "DEFAULT_LOG_LEVEL")
                else PNone
            | None => PNone
            end) /\
  Idiomatic.get_log_level config_dict =
    Return (match config_dict !! "ENABLE_LOGGING" with
            | Some enable_logging =>
                if truthy enable_logging
                then default PNone (config_dict !! "DEFAULT_LOG_LEVEL")
                else PNone
            | None => PNone
            end) /\
  (config_dict !! "ENABLE_LOGGING" = None \/ config_dict !! "DEFAULT_LOG_LEVEL" = None ->
   Harmful.get_log_level config_dict = Return PNone /\
   Idiomatic.get_log_level config_dict = Return PNone).
Proof.
  assert (Harmful.get_log_level config_dict =
    Return (match config_dict !! "ENABLE_LOGGING" with
            | Some enable_logging =>
                if equals enable_logging (PBool true)
                then default PNone (config_dict !! "DEFAULT_LOG_LEVEL")
                else PNone
            | None => PNone
            end)) as Hharmful.
  { unfold Harmful.get_log_level, subscript.
    destruct (decide ("ENABLE_LOGGING" ∈ dom config_dict)) as [Hin|Hin].
    - rewrite (bool_decide_eq_true_2 _ Hin).
      apply elem_of_dom in Hin as [enable_logging ->].
      cbn [from_option mbind outcome_bind].
      destruct (equals enable_logging (PBool true)); cbn [negb]; [|done].
      destruct (decide ("DEFAULT_LOG_LEVEL" ∈ dom config_dict)) as [Hlevel|Hlevel].
      + rewrite (bool_decide_eq_true_2 _ Hlevel). cbn [negb].
        by apply elem_of_dom in Hlevel as [level ->].
      + rewrite (bool_decide_eq_false_2 _ Hlevel). cbn [negb].
        by apply not_elem_of_dom in Hlevel as ->.
    - rewrite (bool_decide_eq_false_2 _ Hin).
      by apply not_elem_of_dom in Hin as ->. }
  assert (Idiomatic.get_log_level config_dict =
    Return (match config_dict !! "ENABLE_LOGGING" with
            | Some enable_logging =>
                if truthy enable_logging
                then default PNone (config_dict !! "DEFAULT_LOG_LEVEL")
                else PNone
            | None => PNone
            end)) as Hidiomatic.
  { unfold Idiomatic.get_log_level, subscript.
    destruct (config_dict !! "ENABLE_LOGGING") as [enable_logging|]; cbn; [|done].
    destruct (truthy enable_logging); cbn; [|done].
    by destruct (config_dict !! "DEFAULT_LOG_LEVEL"). }
  split; [done|]. split; [done|].
  rewrite Hharmful, Hidiomatic. intros [->| ->]; [done|].
  destruct (config_dict !! "ENABLE_LOGGING") as [enable_logging|]; [|done].
  cbn [default from_option]. split.
  - by destruct (equals enable_logging (PBool true)).
  - by destruct (truthy enable_logging).
Qed.

(** X10.  Exceptions, 2.  When [ENABLE_LOGGING] is absent or a boolean, both
    versions return the same. *)
Theorem get_log_level_same (config_dict : gmap string pyval) :
  (forall enable_logging, config_dict !! "ENABLE_LOGGING" = Some enable_logging ->
     exists b, enable_logging = PBool b) ->
  Harmful.get_log_level config_dict = Idiomatic.get_log_level config_dict.
Proof.
  intros Hbool.
  unfold Harmful.get_log_level, Idiomatic.get_log_level, subscript.
  case_bool_decide as Hin.
  - apply elem_of_dom in Hin as [enable_logging Hin].
    destruct (Hbool _ Hin) as [b ->]. rewrite Hin.
    cbn [from_option mbind outcome_bind except truthy].
    destruct b; [|done].
    replace (equals (PBool true) (PBool true)) with true by reflexivity. cbn [negb].
    destruct (decide ("DEFAULT_LOG_LEVEL" ∈ dom config_dict)) as [Hlevel|Hlevel].
    + rewrite bool_decide_eq_true_2 by done. cbn [negb].
      by apply elem_of_dom in Hlevel as [level ->].
    + rewrite bool_decide_eq_false_2 by done. cbn [negb].
      apply not_elem_of_dom in Hlevel. by rewrite Hlevel.
  - apply not_elem_of_dom in Hin. by rewrite Hin.
Qed.

Lemma get_log_level_same_witness :
  Harmful.get_log_level
    {[ "ENABLE_LOGGING" := PBool true; "DEFAULT_LOG_LEVEL" := PStr "DEBUG" ]} =
  Idiomatic.get_log_level
    {[ "ENABLE_LOGGING" := PBool true; "DEFAULT_LOG_LEVEL" := PStr "DEBUG" ]}.
Proof.
  apply get_log_level_same.
  intros enable_logging H. exists true.
  apply (inj Some). rewrite <- H. reflexivity.
Defined.

(** A value of [ENABLE_LOGGING] that is true without being [True] tells the
    two versions apart. *)
Example get_log_level_yes :
  Harmful.get_log_level
    {[ "ENABLE_LOGGING" := PStr "yes"; "DEFAULT_LOG_LEVEL" := PStr "DEBUG" ]} =
    Return PNone /\
  Idiomatic.get_log_level
    {[ "ENABLE_LOGGING" := PStr "yes"; "DEFAULT_LOG_LEVEL" := PStr "DEBUG" ]} =
    Return (PStr "DEBUG").
Proof. split; reflexivity. Qed.

End ControlStructuresFacts.

(** ** The samples of Working with Data *)

Module WorkingWithDataFacts.
Import Python WorkingWithData.

#[local] Set Warnings "-clear-no-such-hyp".

Lemma slice_from_last_two {A : Type} (word : list A) (start : Z) :
  start = -2 \/ start = Z.of_nat (length word) - 2 ->
  slice_from word start = drop (length word - 2) word.
Proof.
  intros Hstart. unfold slice_from. f_equal.
  case_bool_decide; lia.
Qed.

(** X11.  Lists, 2.  For every word, the empty one and the one of a single
    character included, both versions return the same: the word without all
    but its last two characters. *)
Theorem get_suffix_same {A : Type} (word : list A) :
  Harmful.get_suffix word = Idiomatic.get_suffix word /\
  Idiomatic.get_suffix word = drop (length word - 2) word.
Proof.
  unfold Harmful.get_suffix, Idiomatic.get_suffix.
  rewrite !slice_from_last_two; auto.
Qed.

Lemma contains_zero_existsb (iterable : list pyval) :
  Harmful.contains_zero iterable = existsb (fun e => equals e (PInt 0)) iterable.
Proof.
  induction iterable as [|e iterable IH]; cbn [Harmful.contains_zero existsb]; [done|].
  rewrite IH. by destruct (equals e (PInt 0)).
Qed.

(** A zero is not true. *)
Lemma eq_zero_falsy (e : pyval) : equals e (PInt 0) = true -> truthy e = false.
Proof.
  destruct e as [|[]|z| | |]; cbn; try done.
  rewrite bool_decide_eq_true. intros [= ->]. done.
Qed.

(** Among booleans and integers, only a zero is not true. *)
Lemma falsy_number_zero (e : pyval) (z : Z) :
  as_int e = Some z -> truthy e = false -> equals e (PInt 0) = true.
Proof.
  destruct e as [|[]|n| | |]; cbn; try done.
  intros _. rewrite negb_false_iff, !bool_decide_eq_true. by intros ->.
Qed.

(** X12.  Lists, 5.  [not all(iterable)] is true when the loop finds a zero, and
    besides when an element is false without being zero (an empty string,
    [None], an empty list); over booleans and integers both versions return
    the same. *)
Theorem contains_zero_all (iterable : list pyval) :
  Idiomatic.contains_zero iterable =
    Harmful.contains_zero iterable
    || existsb (fun e => negb (truthy e) && negb (equals e (PInt 0))) iterable /\
  (Forall (fun e => exists z, as_int e = Some z) iterable ->
   Harmful.contains_zero iterable = Idiomatic.contains_zero iterable).
Proof.
  rewrite contains_zero_existsb. unfold Idiomatic.contains_zero, all.
  assert (negb (forallb truthy iterable) =
          existsb (fun e => equals e (PInt 0)) iterable
          || existsb (fun e => negb (truthy e) && negb (equals e (PInt 0))) iterable) as Hall.
  { induction iterable as [|e iterable IH]; cbn [forallb existsb]; [done|].
    rewrite negb_andb, IH.
    destruct (equals e (PInt 0)) eqn:Hzero.
    - by rewrite (eq_zero_falsy e Hzero).
    - cbn. rewrite andb_true_r.
      destruct (truthy e); cbn; [done|]. by rewrite orb_true_r. }
  split; [done|]. intros Hnumbers. rewrite Hall.
  replace (existsb (fun e => negb (truthy e) && negb (equals e (PInt 0))) iterable) with false.
  { by rewrite orb_false_r. }
  symmetry. apply not_true_is_false. intros Hex.
  apply existsb_exists in Hex as (e & Hin & He).
  apply andb_prop in He as [Hfalsy Hnonzero].
  rewrite Forall_forall in Hnumbers.
  destruct (Hnumbers e) as [z Hz]; [by apply list_elem_of_In|].
  apply negb_true_iff in Hfalsy, Hnonzero.
  by rewrite (falsy_number_zero e z) in Hnonzero.
Qed.

(** X13.  Dictionaries, 1.  With one of the four operators both versions do the
    same, a division by zero included; with any other operator the chain of
    [if]s returns [None] and the dictionary raises [KeyError]. *)
Theorem apply_operation_switch {F : Type} (quotient : Z -> Z -> option F)
    (left_operand right_operand : Z) (operator : string) :
  (operator ∈ ["+"; "-"; "*"; "/"] ->
   Harmful.apply_operation quotient left_operand right_operand operator =
   Idiomatic.apply_operation quotient left_operand right_operand operator) /\
  (operator ∉ ["+"; "-"; "*"; "/"] ->
   Harmful.apply_operation quotient left_operand right_operand operator = Return None /\
   Idiomatic.apply_operation quotient left_operand right_operand operator = Raise KeyError).
Proof.
  split.
  - intros Hop.
    repeat (apply elem_of_cons in Hop as [->|Hop]; [reflexivity|]).
    by apply elem_of_nil in Hop.
  - intros Hop.
    rewrite !not_elem_of_cons in Hop. destruct Hop as (? & ? & ? & ? & _).
    unfold Harmful.apply_operation, Idiomatic.apply_operation, subscript,
      Idiomatic.operator_mapper.
    rewrite !bool_decide_eq_false_2 by done.
    by rewrite !lookup_insert_ne, lookup_singleton_ne.
Qed.

Lemma foldl_append_if {A : Type} (P : A -> Prop) `{forall x, Decision (P x)}
    (acc l : list A) :
  foldl (fun acc x => if bool_decide (P x) then acc ++ [x] else acc) acc l =
  acc ++ filter P l.
Proof.
  revert acc. induction l as [|x l IH]; intros acc; cbn [foldl].
  { by rewrite filter_nil, app_nil_r. }
  rewrite IH, filter_cons. case_bool_decide.
  - rewrite decide_True by done. by rewrite <- app_assoc.
  - by rewrite decide_False.
Qed.

(** X14.  Sets, 1.  The loop returns the active users that are popular, in the
    order and as often as the list of active users has them; the set
    intersection has the same users, each once. *)
Theorem popular_and_active_users_same
    (get_list_of_most_popular_users get_list_of_most_active_users : list string) :
  Harmful.get_both_popular_and_active_users
    get_list_of_most_popular_users get_list_of_most_active_users =
    filter (fun user => user ∈ get_list_of_most_popular_users)
      get_list_of_most_active_users /\
  list_to_set (Harmful.get_both_popular_and_active_users
                 get_list_of_most_popular_users get_list_of_most_active_users) =
  Idiomatic.get_both_popular_and_active_users
    get_list_of_most_popular_users get_list_of_most_active_users.
Proof.
  unfold Harmful.get_both_popular_and_active_users,
    Idiomatic.get_both_popular_and_active_users.
  rewrite (foldl_append_if (fun user => user ∈ get_list_of_most_popular_users)).
  split; [done|]. cbn [app].
  apply set_eq. intros user.
  rewrite elem_of_list_to_set, list_elem_of_filter, elem_of_intersection,
    !elem_of_list_to_set.
  tauto.
Qed.

Lemma has_duplicate_existsb (list_two list_one : list string) (duplicate_name : bool) :
  foldl (fun duplicate_name name =>
           if bool_decide (name ∈ list_two) then true else duplicate_name)
    duplicate_name list_one =
  duplicate_name || bool_decide (Exists (fun name => name ∈ list_two) list_one).
Proof.
  revert duplicate_name.
  induction list_one as [|name list_one IH]; intros duplicate_name; cbn [foldl].
  { rewrite bool_decide_eq_false_2; [by rewrite orb_false_r|]. by intros ?%Exists_nil. }
  rewrite IH. destruct (decide (name ∈ list_two)) as [Hname|Hname].
  - rewrite (bool_decide_eq_true_2 (name ∈ list_two)) by done.
    rewrite (bool_decide_eq_true_2 (Exists _ (name :: _))) by (by left).
    by rewrite orb_true_r.
  - rewrite (bool_decide_eq_false_2 (name ∈ list_two)) by done.
    f_equal. apply bool_decide_ext. rewrite Exists_cons. tauto.
Qed.

(** X15.  Sets, 3.  The set the Idiomatic version returns is true, as a set is
    when it is not empty, exactly when the Harmful version returns [True]. *)
Theorem has_duplicate_same (list_one list_two : list string) :
  Harmful.has_duplicate list_one list_two =
  bool_decide (Idiomatic.has_duplicate list_one list_two ≠ ∅).
Proof.
  unfold Harmful.has_duplicate, Idiomatic.has_duplicate.
  rewrite has_duplicate_existsb. cbn.
  apply bool_decide_ext. rewrite Exists_exists. split.
  - intros (name & Hone & Htwo) Hempty.
    assert (name ∈ (∅ : gset string)) as Hin; [|set_solver].
    rewrite <- Hempty. set_solver.
  - intros Hne. apply set_choose_L in Hne as [name Hname].
    exists name. set_solver.
Qed.

Lemma unique_surnames_foldl (unique_surnames employee_surnames : list string) :
  NoDup unique_surnames ->
  NoDup (foldl (fun unique_surnames surname =>
                  if bool_decide (surname ∉ unique_surnames)
                  then unique_surnames ++ [surname]
                  else unique_surnames)
           unique_surnames employee_surnames) /\
  (list_to_set
     (foldl (fun unique_surnames surname =>
               if bool_decide (surname ∉ unique_surnames)
               then unique_surnames ++ [surname]
               else unique_surnames)
        unique_surnames employee_surnames) : gset string) =
  list_to_set unique_surnames ∪ list_to_set employee_surnames.
Proof.
  revert unique_surnames.
  induction employee_surnames as [|surname employee_surnames IH];
    intros unique_surnames Hnd; cbn [foldl].
  { split; [done|]. set_solver. }
  case_bool_decide as Hnew.
  - destruct (IH (unique_surnames ++ [surname])) as [Hnd' Hset].
    { apply NoDup_app. split; [done|]. split; [|apply NoDup_singleton].
      intros x Hx ->%list_elem_of_singleton. done. }
    split; [done|]. rewrite Hset. set_solver.
  - destruct (IH unique_surnames Hnd) as [Hnd' Hset].
    split; [done|]. rewrite Hset.
    set_solver.
Qed.

(** X16.  Sets, 4.  The list the loop fills has no surname twice, and has exactly
    the surnames of the set. *)
Theorem unique_surnames_same (employee_surnames : list string) :
  NoDup (Harmful.unique_surnames employee_surnames) /\
  list_to_set (Harmful.unique_surnames employee_surnames) =
  Idiomatic.unique_surnames employee_surnames.
Proof.
  unfold Harmful.unique_surnames, Idiomatic.unique_surnames.
  destruct (unique_surnames_foldl [] employee_surnames) as [Hnd Hset];
    [apply NoDup_nil_2|].
  split; [done|]. rewrite Hset. set_solver.
Qed.

Lemma sum_ones {A : Type} (l : list A) (total : Z) :
  foldl Z.add total ((fun _ => 1) <$> l) = total + Z.of_nat (length l).
Proof.
  revert total. induction l as [|x l IH]; intros total; cbn; [lia|].
  rewrite IH. lia.
Qed.

(** X17.  Classes, 2.  [count_occurrences] is the number of places of the string
    that hold the key: at most the length, and zero exactly when the key does
    not occur. *)
Theorem count_occurrences_counts {A : Type} `{EqDecision A} (string : list A) (key : A) :
  Idiomatic.count_occurrences string key =
    Z.of_nat (length (filter (fun c => c = key) string)) /\
  0 ≤ Idiomatic.count_occurrences string key ≤ Z.of_nat (length string) /\
  (Idiomatic.count_occurrences string key = 0 <-> key ∉ string).
Proof.
  unfold Idiomatic.count_occurrences, sum. rewrite sum_ones, Z.add_0_l.
  split; [done|]. split.
  - pose proof (length_filter (fun c => c = key) string). lia.
  - rewrite <- Nat2Z.inj_0, Nat2Z.inj_iff, length_zero_iff_nil. split.
    + intros Hnil Hin.
      assert (key ∈ filter (fun c => c = key) string) as Hkey
        by (by apply list_elem_of_filter).
      rewrite Hnil in Hkey. by apply elem_of_nil in Hkey.
    + intros Hnotin. apply elem_of_nil_inv.
      intros c [-> Hc]%list_elem_of_filter. done.
Qed.

Section Palindrome.

Context {A : Type} `{EqDecision A}.

(** An index from the front. *)
Lemma getitem_front (string : list A) (k : nat) (a : A) :
  string !! k = Some a -> getitem string (Z.of_nat k) = Return a.
Proof.
  intros Ha. pose proof (lookup_lt_Some _ _ _ Ha).
  unfold getitem. cbv zeta.
  rewrite (bool_decide_eq_false_2 (Z.of_nat k < 0)) by lia.
  rewrite bool_decide_eq_true_2 by lia.
  by rewrite Nat2Z.id, Ha.
Qed.

(** An index from the back. *)
Lemma getitem_back (string : list A) (k : nat) (b : A) :
  reverse string !! k = Some b -> getitem string (- Z.of_nat k - 1) = Return b.
Proof.
  intros Hb. pose proof (lookup_lt_Some _ _ _ Hb) as Hk.
  rewrite length_reverse in Hk.
  rewrite reverse_lookup in Hb by done.
  unfold getitem. cbv zeta.
  rewrite (bool_decide_eq_true_2 (- Z.of_nat k - 1 < 0)) by lia.
  rewrite bool_decide_eq_true_2 by lia.
  replace (Z.to_nat (- Z.of_nat k - 1 + Z.of_nat (length string)))
    with (length string - S k)%nat by lia.
  by rewrite Hb.
Qed.

Lemma for_index_mirror (string : list A) (indices : list nat) :
  Forall (fun k => (k < length string)%nat) indices ->
  Idiomatic.for_index string (Z.of_nat <$> indices) =
  Return (bool_decide (Forall (fun k => string !! k = reverse string !! k) indices)).
Proof.
  induction 1 as [|k indices Hk _ IH]; cbn [fmap list_fmap Idiomatic.for_index].
  { by rewrite bool_decide_eq_true_2. }
  destruct (lookup_lt_is_Some_2 string k Hk) as [a Ha].
  destruct (lookup_lt_is_Some_2 (reverse string) k) as [b Hb].
  { by rewrite length_reverse. }
  rewrite (getitem_front _ _ _ Ha), (getitem_back _ _ _ Hb).
  cbn [mbind outcome_bind]. rewrite IH.
  destruct (decide (a = b)) as [->|Hab].
  - rewrite bool_decide_eq_false_2 by auto. f_equal.
    apply bool_decide_ext. rewrite Forall_cons, Ha, Hb. tauto.
  - rewrite bool_decide_eq_true_2 by done. f_equal. symmetry.
    apply bool_decide_eq_false_2. rewrite Forall_cons, Ha, Hb. intros [[=] _]. done.
Qed.

Lemma range_half (n : nat) :
  range 0 (Z.of_nat n `div` 2) = Z.of_nat <$> seq 0 (n / 2).
Proof.
  unfold range, seqZ. rewrite Z.sub_0_r.
  replace (Z.to_nat (Z.of_nat n `div` 2)) with (n / 2)%nat.
  - apply list_fmap_ext. intros _ i _. lia.
  - rewrite <- (Nat2Z.id (n / 2)). f_equal. apply (Nat2Z.inj_div n 2).
Qed.

(** Comparing the first half with the mirrored places is comparing all. *)
Lemma mirror_half (string : list A) :
  Forall (fun k => string !! k = reverse string !! k) (seq 0 (length string / 2)) <->
  string = reverse string.
Proof.
  split; [|by intros <-; apply Forall_forall].
  rewrite Forall_forall. intros Hhalf.
  assert (forall k, (k < length string / 2)%nat -> string !! k = reverse string !! k)
    as Hfront.
  { intros k Hk. apply Hhalf, elem_of_seq. lia. }
  pose proof (Nat.div_mod_eq (length string) 2) as Hdiv.
  pose proof (Nat.mod_upper_bound (length string) 2) as Hmod.
  apply list_eq. intros i.
  destruct (decide (i < length string)%nat) as [Hi|Hi]; last first.
  { rewrite !lookup_ge_None_2; [done|rewrite length_reverse; lia|lia]. }
  destruct (decide (i < length string / 2)%nat) as [Hlow|Hlow]; [by apply Hfront|].
  rewrite reverse_lookup by done.
  destruct (decide (length string - S i < length string / 2)%nat) as [Hj|Hj].
  - rewrite (Hfront _ Hj), reverse_lookup by lia.
    f_equal. lia.
  - f_equal. lia.
Qed.

End Palindrome.

(** X18.  Classes, 2.  [is_palindrome] never raises, and returns [True] exactly
    when the string reads the same from both ends. *)
Theorem is_palindrome_reverse {A : Type} `{EqDecision A} (string : list A) :
  Idiomatic.is_palindrome string = Return (bool_decide (string = reverse string)).
Proof.
  unfold Idiomatic.is_palindrome. rewrite range_half, for_index_mirror.
  - f_equal. apply bool_decide_ext, mirror_half.
  - apply Forall_forall. intros k [_ Hk]%elem_of_seq.
    pose proof (Nat.div_mod_eq (length string) 2).
    pose proof (Nat.mod_upper_bound (length string) 2). lia.
Qed.

(** X19.  Classes, 3.  The two versions of [get_size] return the same for every
    string, list, boolean and integer other than 0.  For 0 the first returns
    1 (0 equals [False], so it is found in the tuple) where the second
    returns 0; for [None] the first raises [TypeError] ([None] is not
    [type(None)], so [int] is tried) where the second returns 1; for a type
    the first returns 1 or raises and the second returns [None]. *)
Theorem get_size_differs (int_of_str : string -> outcome Z) (some_object : pyval) :
  Harmful.get_size int_of_str some_object =
    match some_object with
    | PInt 0 => Return (PInt 1)
    | PNone => Raise TypeError
    | PType t => if decide (t = NoneType) then Return (PInt 1) else Raise TypeError
    | _ => Idiomatic.get_size int_of_str some_object
    end /\
  Idiomatic.get_size int_of_str (PInt 0) = Return (PInt 0) /\
  Idiomatic.get_size int_of_str PNone = Return (PInt 1) /\
  (forall t, Idiomatic.get_size int_of_str (PType t) = Return PNone).
Proof.
  split; [|by repeat split].
  destruct some_object as [|[]|z|s|items|t]; try reflexivity.
  - destruct z as [|p|p]; [reflexivity| |reflexivity].
    destruct (decide (p = 1%positive)) as [->|Hp]; [reflexivity|].
    unfold Harmful.get_size, Idiomatic.get_size. cbn.
    rewrite bool_decide_eq_false_2; [done|]. intros [= ?]. done.
  - by destruct t.
Qed.

End WorkingWithDataFacts.

(** ** The samples of Organizing Your Code *)

Module OrganizingYourCodeFacts.
Import Python OrganizingYourCode.

(** X20.  Documentation, 2.  Over a list that is not empty both versions
    end the same way: they return the float of the sum over the length, or
    raise [OverflowError] when that quotient is too large for a float.  Over
    the empty list the first returns 0 and the second raises
    [ZeroDivisionError]. *)
Theorem calculate_mean_empty {F : Type} (quotient : Z -> Z -> option F) (numbers : list Z) :
  (numbers <> [] ->
   Harmful.calculate_mean quotient numbers = Idiomatic.calculate_mean quotient numbers /\
   Idiomatic.calculate_mean quotient numbers =
     match quotient (sum numbers) (Z.of_nat (length numbers)) with
     | Some mean => Return (Float mean)
     | None => Raise OverflowError
     end) /\
  (numbers = [] ->
   Harmful.calculate_mean quotient numbers = Return (Int 0) /\
   Idiomatic.calculate_mean quotient numbers = Raise ZeroDivisionError).
Proof.
  unfold Harmful.calculate_mean, Idiomatic.calculate_mean, truediv. split.
  - intros Hne. rewrite (bool_decide_eq_false_2 (numbers = [])) by done.
    split; [done|].
    rewrite bool_decide_eq_false_2; [done|]. by destruct numbers.
  - by intros ->.
Qed.

Lemma for_candidate_Forall (number : Z) (candidates : list Z) :
  Idiomatic.for_candidate number candidates =
  bool_decide (number > 0 /\ Forall (fun c => number `mod` c <> 0) candidates).
Proof.
  induction candidates as [|candidate candidates IH]; cbn [Idiomatic.for_candidate].
  { apply bool_decide_ext. split; [by intros ?|by intros []]. }
  destruct (decide (number `mod` candidate = 0)) as [Hmod|Hmod].
  - rewrite (bool_decide_eq_true_2 (number `mod` candidate = 0)) by done.
    symmetry. apply bool_decide_eq_false_2. rewrite Forall_cons. tauto.
  - rewrite (bool_decide_eq_false_2 (number `mod` candidate = 0)) by done.
    rewrite IH. apply bool_decide_ext. rewrite Forall_cons. tauto.
Qed.

Lemma elem_of_range (start stop c : Z) : c ∈ range start stop <-> start ≤ c < stop.
Proof. unfold range. rewrite elem_of_seqZ. lia. Qed.

(** X21.  Documentation, 3.  [is_prime] returns [True] for the primes, and for 1,
    and for no other number. *)
Theorem is_prime_prime (number : Z) :
  Idiomatic.is_prime number = true <-> number = 1 \/ Z.prime number.
Proof.
  unfold Idiomatic.is_prime.
  rewrite for_candidate_Forall, bool_decide_eq_true, Forall_forall.
  setoid_rewrite elem_of_range.
  unfold Z.prime. split.
  - intros [Hpos Hnone].
    destruct (decide (number = 1)) as [|Hone]; [by left|right].
    split; [lia|]. intros c Hc Hdiv.
    apply (Hnone c); [lia|]. apply Z.mod_divide; [lia|done].
  - intros [->|[Hgt Hnone]].
    + split; [lia|]. intros c Hc. lia.
    + split; [lia|]. intros c Hc Hmod.
      apply (Hnone c); [lia|]. apply Z.mod_divide; [lia|done].
Qed.

Lemma for_candidate_prints (number : Z) (candidates : list Z) :
  (Harmful.for_candidate number candidates).2 =
    Idiomatic.for_candidate number candidates /\
  (((Harmful.for_candidate number candidates).1 = [] /\
    Forall (fun c => number `mod` c <> 0) candidates) \/
   (exists before d after,
      candidates = before ++ d :: after /\
      Forall (fun c => number `mod` c <> 0) before /\
      number `mod` d = 0 /\
      (Harmful.for_candidate number candidates).1 = [d; 0])).
Proof.
  induction candidates as [|candidate candidates [IHresult IHprints]];
    cbn [Harmful.for_candidate Idiomatic.for_candidate].
  { split; [done|]. left. by split. }
  destruct (decide (number `mod` candidate = 0)) as [Hmod|Hmod];
    [rewrite !(bool_decide_eq_true_2 (number `mod` candidate = 0)) by done
    |rewrite !(bool_decide_eq_false_2 (number `mod` candidate = 0)) by done].
  - split; [done|]. right. exists [], candidate, candidates.
    split; [done|]. split; [done|]. split; [done|]. cbn. by rewrite Hmod.
  - split; [done|].
    destruct IHprints as [[Hnil Hall]|(before & d & after & -> & Hbefore & Hd & Hprints)].
    + left. split; [done|]. by constructor.
    + right. exists (candidate :: before), d, after.
      split; [done|]. split; [by constructor|]. by split.
Qed.

(** X22.  Documentation, 3, Harmful.  The version that prints returns what the
    other returns.  It prints nothing when no candidate divides the number;
    otherwise it prints the least divisor of the number from 2 on, and then
    0. *)
Theorem is_prime_prints (number : Z) :
  (Harmful.is_prime number).2 = Idiomatic.is_prime number /\
  (((Harmful.is_prime number).1 = [] /\
    forall c, 2 ≤ c < number -> ¬ (c | number)) \/
   (exists d,
      (Harmful.is_prime number).1 = [d; 0] /\
      2 ≤ d < number /\ (d | number) /\
      forall c, 2 ≤ c < d -> ¬ (c | number))).
Proof.
  unfold Harmful.is_prime, Idiomatic.is_prime.
  destruct (for_candidate_prints number (range 2 number)) as [Hresult Hprints].
  split; [done|].
  destruct Hprints as [[Hnil Hall]|(before & d & after & Hsplit & Hbefore & Hd & Hprints)].
  - left. split; [done|]. intros c Hc Hdiv.
    rewrite Forall_forall in Hall. apply (Hall c); [by apply elem_of_range|].
    apply Z.mod_divide; [lia|done].
  - right. exists d. split; [done|].
    assert (d = 2 + Z.of_nat (length before) /\
            Z.of_nat (length before) < number - 2) as [Hdlen Hlen].
    { assert (range 2 number !! length before = Some d) as Hlookup.
      { rewrite Hsplit. by apply list_lookup_middle. }
      unfold range in Hlookup. apply lookup_seqZ in Hlookup. lia. }
    split; [lia|]. split; [apply Z.mod_divide; [lia|done]|].
    intros c Hc Hdiv.
    assert (c ∈ before) as Hin.
    { assert (range 2 number !! Z.to_nat (c - 2) = Some c) as Hlookup.
      { unfold range. apply lookup_seqZ. lia. }
      rewrite Hsplit, lookup_app_l in Hlookup by lia.
      by eapply list_elem_of_lookup_2. }
    rewrite Forall_forall in Hbefore. apply (Hbefore c Hin).
    apply Z.mod_divide; [lia|done].
Qed.

(** X23.  Executable Scripts, 3.  [main] makes the calls the Harmful script makes.
    It returns 0 only after [do_stuff_with_result] was called; it exits with
    status 1 when the result of [do_stuff] is false, and with the message
    when the command line has no argument. *)
Theorem main_exit_status {Result : Type} (do_stuff : string -> Result)
    (truth : Result -> bool) (argv : list string) :
  (Idiomatic.main do_stuff truth argv).1 = Harmful.script do_stuff truth argv /\
  match (Idiomatic.main do_stuff truth argv).2 with
  | Returned value =>
      value = 0 /\
      exists argument,
        argv !! 1%nat = Some argument /\ truth (do_stuff argument) = true /\
        (Idiomatic.main do_stuff truth argv).1 =
          [do_stuff_called argument; do_stuff_with_result_called (do_stuff argument)]
  | ExitInt status =>
      status = 1 /\
      exists argument,
        argv !! 1%nat = Some argument /\ truth (do_stuff argument) = false /\
        (Idiomatic.main do_stuff truth argv).1 = [do_stuff_called argument]
  | ExitStr message =>
      message = "You forgot to pass an argument" /\
      (length argv < 2)%nat /\
      (Idiomatic.main do_stuff truth argv).1 = []
  end.
Proof.
  destruct argv as [|program [|argument argv]]; cbn.
  - repeat split; lia.
  - repeat split; lia.
  - destruct (truth (do_stuff argument)) eqn:Htruth; cbn.
    + split; [done|]. split; [done|]. by exists argument.
    + split; [done|]. split; [done|]. by exists argument.
Qed.

End OrganizingYourCodeFacts.
